(** * The contract binding layer of starknet.js

    A shallow embedding of [src/contract/default.ts] (the [Contract] class
    with its builder helpers) and of the contract factory's [deploy], and the
    properties of the dispatch, binding and argument handling proved on it.

    JavaScript values are a small inductive type, objects are finite maps
    from property names to values, thrown errors and rejected promises are
    the [Throw] outcome of a writer/error monad whose log records every
    request to the collaborators (the operations of the calldata helper, the
    backend and the console). *)

From Stdlib Require Import ZArith String Ascii List Bool.
From stdpp Require Import base option gmap strings list pretty.
Import ListNotations.
Local Open Scope string_scope.

Set Warnings "-register-all".

(** ** The ABI schema *)

Record AbiParam := { param_name : string; param_type : string }.

(** One entry of the ABI array, as the JSON has it: a function entry has
    [inputs], [outputs] and one of the two mutability fields, a struct entry
    has [members]; a field absent from the JSON is [None]. *)
Record AbiEntry := {
  type : string;
  name : string;
  inputs : option (list AbiParam);
  outputs : option (list AbiParam);
  members : option (list AbiParam);
  stateMutability : option string;
  state_mutability : option string
}.

Definition Abi := list AbiEntry.

(** ** Values *)

(** The function values the binder creates: the closure returned by each
    [build*] helper.  A closure captures [functionAbi] by value and the
    instance by reference, so the descriptor records the entry and [apply]
    (below) supplies the instance. *)
Inductive func :=
| FCall (functionAbi : AbiEntry)
| FInvoke (functionAbi : AbiEntry)
| FPopulate (functionAbi : AbiEntry)
| FEstimate (functionAbi : AbiEntry).

(** Numbers are the integers; an array carries its elements and its extra
    own properties (the [compiled] tag of a Calldata array is one). *)
Inductive value :=
| VUndefined
| VNull
| VBool (b : bool)
| VNum (n : Z)
| VStr (s : string)
| VObj (props : gmap string value)
| VArr (props : gmap string value) (elems : list value)
| VFun (f : func).

Definition truthy (v : value) : bool :=
  match v with
  | VUndefined | VNull => false
  | VBool b => b
  | VNum n => negb (n =? 0)%Z
  | VStr s => negb (String.eqb s "")
  | VObj _ | VArr _ _ | VFun _ => true
  end.

Definition typeof (v : value) : string :=
  match v with
  | VUndefined => "undefined"
  | VNull | VObj _ | VArr _ _ => "object"
  | VBool _ => "boolean"
  | VNum _ => "number"
  | VStr _ => "string"
  | VFun _ => "function"
  end.

Definition is_null (v : value) : bool :=
  match v with VNull => true | _ => false end.

Definition is_undefined (v : value) : bool :=
  match v with VUndefined => true | _ => false end.

Definition nullish (v : value) : bool := is_null v || is_undefined v.

(** A parameter or destructuring default: it replaces [undefined] only. *)
Definition default_to (d v : value) : value :=
  if is_undefined v then d else v.

Definition from_option (o : option value) : value :=
  match o with Some v => v | None => VUndefined end.

(** [v.k] on a value that is neither [null] nor [undefined].  The keys read
    this way ([compiled], the option names, [result]) are not members of any
    built-in prototype, so only own properties are looked up. *)
Definition get (v : value) (k : string) : value :=
  match v with
  | VObj props | VArr props _ => from_option (props !! k)
  | _ => VUndefined
  end.

(** [v?.k] *)
Definition get_opt (v : value) (k : string) : value :=
  if nullish v then VUndefined else get v k.

(** [k in v] for an object or an array; [None] where JavaScript raises a
    TypeError (any value that is not an object, [null] included; behind the
    [typeof] test of the splitter only [null] gets there).  Of an
    array the indices and [length] count too; inherited members are left out,
    no option name is one. *)
Definition has_property (k : string) (v : value) : option bool :=
  match v with
  | VObj props => Some (bool_decide (is_Some (props !! k)))
  | VArr props elems =>
      Some (bool_decide (is_Some (props !! k))
            || String.eqb k "length"
            || existsb (fun i => String.eqb k (pretty i)) (seq 0 (length elems)))
  | VFun _ => Some false
  | _ => None
  end.

(** The own enumerable properties an object spread [{...v}] copies. *)
Definition spread (v : value) : gmap string value :=
  match v with
  | VObj props => props
  | VArr props elems =>
      props ∪ list_to_map (imap (fun i x => (pretty i, x)) elems)
  | _ => ∅
  end.

(** [String.prototype.toLowerCase] is a builtin of the language, which
    lowers every letter of Unicode.  It is not code of the repository: it is
    taken as given, with the one fact about it the binder relies on, that
    lowering does not empty a string. *)
Class StringRuntime := {
  toLowerCase : string -> string;
  toLowerCase_nonempty : forall s, s <> "" -> toLowerCase s <> ""
}.

(** What [toLowerCase] does on a string of ASCII characters, an address in
    hexadecimal for one: the letters A to Z are lowered.  The examples use
    it, on such strings only. *)
Definition lower_ascii (a : ascii) : ascii :=
  let n := nat_of_ascii a in
  if (Nat.leb 65 n && Nat.leb n 90)%bool then ascii_of_nat (n + 32) else a.

Fixpoint lower_ascii_string (s : string) : string :=
  match s with
  | EmptyString => EmptyString
  | String a r => String (lower_ascii a) (lower_ascii_string r)
  end.

Definition ascii_runtime : StringRuntime :=
  {| toLowerCase := lower_ascii_string;
     toLowerCase_nonempty :=
       ltac:(intros [|a r] H; [exact H|discriminate]) |}.

(** ** Errors, the log and the monad *)

Inductive error :=
| Error (message : string)        (* [new Error(message)], also from [assert] *)
| TypeError (message : string)    (* raised by the language itself *)
| Rejected (reason : string).     (* a failure of a collaborator, passed on *)

Inductive outcome (A : Type) :=
| Ok (a : A)
| Throw (e : error).
Arguments Ok {A} a.
Arguments Throw {A} e.

Inductive ValidateType := CALL | INVOKE | DEPLOY.

Record Call := {
  contractAddress : value;
  entrypoint : string;
  calldata : value
}.

Record CompiledContract := { compiled_abi : Abi }.

Record DeployPayload := {
  dp_contract : CompiledContract;
  dp_casm : value;
  dp_classHash : value;
  dp_compiledClassHash : value;
  dp_constructorCalldata : value;
  dp_salt : value
}.

(** Everything this layer asks of its collaborators, in order. *)
Inductive event :=
| EvWarn (message : string)
| EvValidate (kind : ValidateType) (method : string) (args : value)
| EvCompile (args : value)
| EvParse (method : string) (raw : value)
| EvFormat (method : string) (raw : value) (formatResponse : value)
| EvCallContract (call : Call) (blockIdentifier : value)
| EvExecute (invocation : Call) (maxFee nonce : value)
| EvInvokeFunction (invocation : Call) (signature : value) (nonce : value)
| EvEstimateInvokeFee (invocation : Call)
| EvDeclareAndDeploy (payload : DeployPayload)
| EvWaitForTransaction (hash : value).

Definition M (A : Type) : Type := (list event * outcome A)%type.

Definition ret {A} (a : A) : M A := ([], Ok a).
Definition throw {A} (e : error) : M A := ([], Throw e).
Definition emit (ev : event) : M unit := ([ev], Ok tt).
Definition lift {A} (o : outcome A) : M A := ([], o).

Definition bind {A B} (m : M A) (k : A -> M B) : M B :=
  match m with
  | (t, Ok a) => let '(t', r) := k a in ((t ++ t')%list, r)
  | (t, Throw e) => (t, Throw e)
  end.

Notation "x <- m ;; k" := (bind m (fun x => k))
  (at level 100, m at next level, right associativity).
Notation "m ;;; k" := (bind m (fun _ => k))
  (at level 100, right associativity).

Definition trace {A} (m : M A) : list event := fst m.
Definition result {A} (m : M A) : outcome A := snd m.

(** [assert(condition, message)] of [utils/assert]. *)
Definition assert (condition : bool) (message : string) : M unit :=
  if condition then ret tt else throw (Error message).

Definition warn (message : string) : M unit := emit (EvWarn message).

(** [x.k] on a value that may be [undefined] or [null]: reading a property
    of either raises; of any other value it is [get]. *)
Definition read_property (x : value) (k : string) : M value :=
  match x with
  | VUndefined =>
      throw (TypeError ("Cannot read properties of undefined (reading '"
                        ++ k ++ "')"))
  | VNull =>
      throw (TypeError ("Cannot read properties of null (reading '"
                        ++ k ++ "')"))
  | _ => ret (get x k)
  end.

(** ** The collaborators *)

(** The calldata helper of [utils/calldata] ([new CallData(abi)]): it is not
    part of the files embedded here, so its operations are the members of an
    interface.  Each takes the ABI the helper was created with.  [compile] is
    the form [compile(args, inputs)] the contract uses, [compileNamed] the
    form [compile(method, args)] the factory uses. *)
Class CallData := {
  validate : Abi -> ValidateType -> string -> value -> outcome unit;
  compile : Abi -> value -> option (list AbiParam) -> outcome value;
  compileNamed : Abi -> string -> value -> outcome value;
  parse : Abi -> string -> value -> outcome value;
  format : Abi -> string -> value -> value -> outcome value
}.

Record DeployResponse := {
  contract_address : value;
  transaction_hash : value
}.

(** The injected provider or account.  Every backend answers
    [callContract], [invokeFunction] and [waitForTransaction]; [execute],
    [estimateInvokeFee] and [declareAndDeploy] are the capabilities of an
    account, present or not (the code probes them with [in]). *)
Record Backend := {
  callContract : Call -> value -> outcome value;
  invokeFunction : Call -> value -> value -> outcome value;
  waitForTransaction : value -> outcome unit;
  execute : option (Call -> value -> value -> outcome value);
  estimateInvokeFee : option (Call -> outcome value);
  declareAndDeploy : option (DeployPayload -> outcome DeployResponse)
}.

(** ** The instance *)

(** [abi], [providerOrAccount] and the four collections are kept as typed
    fields.  [own] holds the other own properties of the object, the ones
    whose value is a JavaScript value: [address], [deployTransactionHash] once
    assigned, and every method the constructor defines on the instance
    itself; [readonly] is the set of those defined with [writable: false]. *)
Record Contract := {
  abi : Abi;
  providerOrAccount : Backend;
  own : gmap string value;
  readonly : gset string;
  functions : gmap string func;
  callStatic : gmap string func;
  populateTransaction : gmap string func;
  estimateFee : gmap string func
}.

(** The own properties held in typed fields: objects, hence truthy. *)
Definition host_fields : list string :=
  ["abi"; "providerOrAccount"; "callData"; "structs";
   "functions"; "callStatic"; "populateTransaction"; "estimateFee"].

(** The members every object inherits from [Object.prototype]. *)
Definition object_prototype : list string :=
  ["constructor"; "__defineGetter__"; "__defineSetter__"; "hasOwnProperty";
   "__lookupGetter__"; "__lookupSetter__"; "isPrototypeOf";
   "propertyIsEnumerable"; "toString"; "valueOf"; "__proto__";
   "toLocaleString"].

(** The methods of the class, on [Contract.prototype]. *)
Definition contract_prototype : list string :=
  ["constructor"; "attach"; "connect"; "deployed";
   "call"; "invoke"; "estimate"; "populate"].

Definition mem (k : string) (l : list string) : bool :=
  existsb (String.eqb k) l.

(** What a property read finds, as far as the constructor's guards need it. *)
Inductive member :=
| Own (v : value)      (* an own property with a JavaScript value *)
| Host                 (* an own property held in a typed field *)
| Inherited            (* a method found on the prototype chain *)
| Missing.             (* nothing: the read gives [undefined] *)

Definition member_truthy (m : member) : bool :=
  match m with
  | Own v => truthy v
  | Host | Inherited => true
  | Missing => false
  end.

(** [this[signature]] *)
Definition this_member (this : Contract) (signature : string) : member :=
  match own this !! signature with
  | Some v => Own v
  | None =>
      if mem signature host_fields then Host
      else if mem signature contract_prototype || mem signature object_prototype
      then Inherited
      else Missing
  end.

(** [collection[signature]] for one of the four collections, each created
    as the object literal [{}]. *)
Definition collection_member (collection : gmap string func) (signature : string)
  : member :=
  match collection !! signature with
  | Some f => Own (VFun f)
  | None => if mem signature object_prototype then Inherited else Missing
  end.

(** [this.address] *)
Definition address (this : Contract) : value := from_option (own this !! "address").

(** [this.deployTransactionHash] *)
Definition deployTransactionHash (this : Contract) : value :=
  from_option (own this !! "deployTransactionHash").

Definition set_own (k : string) (v : value) (this : Contract) : Contract :=
  {| abi := abi this; providerOrAccount := providerOrAccount this;
     own := <[k := v]> (own this); readonly := readonly this;
     functions := functions this; callStatic := callStatic this;
     populateTransaction := populateTransaction this;
     estimateFee := estimateFee this |}.

(** [this.k = v] in strict mode: a TypeError on a non-writable property. *)
Definition assign (k : string) (v : value) (this : Contract) : M Contract :=
  if bool_decide (k ∈ readonly this)
  then throw (TypeError ("Cannot assign to read only property " ++ k))
  else ret (set_own k v this).

(** [Object.defineProperty(this, k, { enumerable: true, value: f, writable:
    false })] where [k] is absent or a configurable data property, the only
    cases the constructor reaches. *)
Definition define_own (k : string) (f : func) (this : Contract) : Contract :=
  {| abi := abi this; providerOrAccount := providerOrAccount this;
     own := <[k := VFun f]> (own this); readonly := {[k]} ∪ readonly this;
     functions := functions this; callStatic := callStatic this;
     populateTransaction := populateTransaction this;
     estimateFee := estimateFee this |}.

(** ** The helpers of [default.ts] *)

Definition option_names : list string :=
  ["blockIdentifier"; "parseRequest"; "parseResponse"; "formatResponse";
   "maxFee"; "nonce"; "signature"].

Record Params := { args : list value; options : value }.

(** [options.some((x) => x in lastArg)], the list [options] of the source
    being [option_names] here: the keys are tried in order and the
    first [in] applied to a non-object raises. *)
Fixpoint some_in (keys : list string) (lastArg : value) : M bool :=
  match keys with
  | [] => ret false
  | x :: rest =>
      match has_property x lastArg with
      | None =>
          throw (TypeError ("Cannot use 'in' operator to search for '" ++ x
                            ++ "' in null"))
      | Some true => ret true
      | Some false => some_in rest lastArg
      end
  end.

(** [args] is the rest array of the caller.  [args[args.length - 1]] is
    [undefined] on the empty array.  In [{ args, options: args.pop() }] both
    fields refer to the one array, which [pop] has shortened by the time the
    record is read: [args] is the list without its last element. *)
Definition splitArgsAndOptions (args : list value) : M Params :=
  let lastArg := from_option (last args) in
  found <- (if String.eqb (typeof lastArg) "object"
            then some_in option_names lastArg else ret false) ;;
  if found
  then ret {| args := removelast args; options := lastArg |}
  else ret {| args := args; options := VObj ∅ |}.

(** [args[0]]: a TypeError on [null] and [undefined]; an element of an
    array, a character of a string, a property of an object. *)
Definition first_element (args : value) : M value :=
  match args with
  | VUndefined | VNull =>
      throw (TypeError "Cannot read properties of undefined (reading '0')")
  | VArr _ elems => ret (from_option (head elems))
  | VObj props => ret (from_option (props !! "0"))
  | VStr (String a _) => ret (VStr (String a EmptyString))
  | _ => ret VUndefined
  end.

Definition getCalldata (args : value) (callback : M value) : M value :=
  if truthy (get_opt args "compiled") then ret args
  else
    first <- first_element args ;;
    if truthy (get_opt first "compiled") then ret first
    else callback.

(** ** The methods of [Contract] *)

Section Dispatch.
Context `{CD : CallData} `{RT : StringRuntime}.

(** [callData.validate(...)] and the like on the helper created with
    [new CallData(abi)]: the request is logged, the helper's answer is
    passed on. *)
Definition callData_validate (abi : Abi) (kind : ValidateType)
    (method : string) (args : value) : M unit :=
  emit (EvValidate kind method args) ;;; lift (validate abi kind method args).

Definition callData_compile (abi : Abi) (args : value)
    (inputs : option (list AbiParam)) : M value :=
  emit (EvCompile args) ;;; lift (compile abi args inputs).

Definition callData_compileNamed (abi : Abi) (method : string) (args : value)
  : M value :=
  emit (EvCompile args) ;;; lift (compileNamed abi method args).

Definition callData_parse (abi : Abi) (method : string) (raw : value)
  : M value :=
  emit (EvParse method raw) ;;; lift (parse abi method raw).

Definition callData_format (abi : Abi) (method : string)
    (raw formatResponse : value) : M value :=
  emit (EvFormat method raw formatResponse) ;;;
  lift (format abi method raw formatResponse).

(** [const { inputs } = this.abi.find((abi) => abi.name === method)]: the
    first entry of that name, function or not; destructuring [undefined]
    raises. *)
Definition find_inputs (this : Contract) (method : string)
  : M (option (list AbiParam)) :=
  match List.find (fun abi => String.eqb (name abi) method) (abi this) with
  | Some entry => ret (inputs entry)
  | None =>
      throw (TypeError "Cannot destructure property 'inputs' of undefined")
  end.

(** A destructuring parameter with the default [{}]: [undefined] takes the
    default, [null] raises, anything else is read property by property. *)
Definition destructure (o : value) : M value :=
  match o with
  | VUndefined => ret (VObj ∅)
  | VNull => throw (TypeError "Cannot destructure property of null")
  | _ => ret o
  end.

Definition not_connected : string := "contract is not connected to an address".

Definition call (this : Contract) (method : string) (args0 options0 : value)
  : M value :=
  let args := default_to (VArr ∅ []) args0 in
  o <- destructure options0 ;;
  let parseRequest := default_to (VBool true) (get o "parseRequest") in
  let parseResponse := default_to (VBool true) (get o "parseResponse") in
  let formatResponse := get o "formatResponse" in
  let blockIdentifier := get o "blockIdentifier" in
  assert (negb (is_null (address this))) not_connected ;;;
  calldata <- getCalldata args
    (if truthy parseRequest then
       inputs <- find_inputs this method ;;
       callData_validate (abi this) CALL method args ;;;
       callData_compile (abi this) args inputs
     else
       warn "Call skipped parsing but provided rawArgs, possible malfunction request" ;;;
       ret args) ;;
  let request := {| contractAddress := address this;
                    calldata := calldata;
                    entrypoint := method |} in
  emit (EvCallContract request blockIdentifier) ;;;
  x <- lift (callContract (providerOrAccount this) request blockIdentifier) ;;
  if negb (truthy parseResponse) then read_property x "result"
  else if truthy formatResponse
  then raw <- read_property x "result" ;;
       callData_format (abi this) method raw formatResponse
  else raw <- read_property x "result" ;;
       callData_parse (abi this) method raw.

Definition nonce_required : string :=
  "Nonce is required when invoking a function without an account".

Definition invoke (this : Contract) (method : string) (args0 overrides : value)
  : M value :=
  let args := default_to (VArr ∅ []) args0 in
  o <- destructure overrides ;;
  let parseRequest := default_to (VBool true) (get o "parseRequest") in
  let maxFee := get o "maxFee" in
  let nonce := get o "nonce" in
  let signature := get o "signature" in
  assert (negb (is_null (address this))) not_connected ;;;
  calldata <- getCalldata args
    (if truthy parseRequest then
       inputs <- find_inputs this method ;;
       callData_validate (abi this) INVOKE method args ;;;
       callData_compile (abi this) args inputs
     else
       warn "Invoke skipped parsing but provided rawArgs, possible malfunction request" ;;;
       ret args) ;;
  let invocation := {| contractAddress := address this;
                       calldata := calldata;
                       entrypoint := method |} in
  match execute (providerOrAccount this) with
  | Some execute =>
      emit (EvExecute invocation maxFee nonce) ;;;
      lift (execute invocation maxFee nonce)
  | None =>
      if negb (truthy nonce) then throw (Error nonce_required)
      else
        warn ("Invoking " ++ method
              ++ " without an account. This will not work on a public node.") ;;;
        emit (EvInvokeFunction invocation signature nonce) ;;;
        lift (invokeFunction (providerOrAccount this) invocation signature nonce)
  end.

Definition populate (this : Contract) (method : string) (args0 : value)
  : M Call :=
  let args := default_to (VArr ∅ []) args0 in
  inputs <- find_inputs this method ;;
  calldata <- getCalldata args (callData_compile (abi this) args inputs) ;;
  ret {| contractAddress := address this;
         entrypoint := method;
         calldata := calldata |}.

Definition not_an_account : string :=
  "Contract must be connected to the account contract to estimate".

Definition estimate (this : Contract) (method : string) (args0 : value)
  : M value :=
  let args := default_to (VArr ∅ []) args0 in
  assert (negb (is_null (address this))) not_connected ;;;
  probe <- getCalldata args (ret (VBool false)) ;;
  (if negb (truthy probe) then callData_validate (abi this) INVOKE method args
   else ret tt) ;;;
  invocation <- populate this method args ;;
  match estimateInvokeFee (providerOrAccount this) with
  | Some estimateInvokeFee =>
      emit (EvEstimateInvokeFee invocation) ;;;
      lift (estimateInvokeFee invocation)
  | None => throw (Error not_an_account)
  end.

Definition attach (this : Contract) (address : value) : M Contract :=
  assign "address" address this.

Definition connect (this : Contract) (providerOrAccount : Backend) : Contract :=
  {| abi := abi this; providerOrAccount := providerOrAccount;
     own := own this; readonly := readonly this;
     functions := functions this; callStatic := callStatic this;
     populateTransaction := populateTransaction this;
     estimateFee := estimateFee this |}.

Definition deployed (this : Contract) : M Contract :=
  if truthy (deployTransactionHash this) then
    emit (EvWaitForTransaction (deployTransactionHash this)) ;;;
    lift (waitForTransaction (providerOrAccount this) (deployTransactionHash this)) ;;;
    assign "deployTransactionHash" VUndefined this
  else ret this.

(** ** The builders *)

Definition buildCall (contract : Contract) (functionAbi : AbiEntry) : func :=
  FCall functionAbi.

Definition buildInvoke (contract : Contract) (functionAbi : AbiEntry) : func :=
  FInvoke functionAbi.

Definition is_view (functionAbi : AbiEntry) : bool :=
  bool_decide (stateMutability functionAbi = Some "view")
  || bool_decide (state_mutability functionAbi = Some "view").

Definition buildDefault (contract : Contract) (functionAbi : AbiEntry) : func :=
  if is_view functionAbi then buildCall contract functionAbi
  else buildInvoke contract functionAbi.

Definition buildPopulate (contract : Contract) (functionAbi : AbiEntry) : func :=
  FPopulate functionAbi.

Definition buildEstimate (contract : Contract) (functionAbi : AbiEntry) : func :=
  FEstimate functionAbi.

(** The object literal [populate] returns, as a value. *)
Definition call_object (c : Call) : value :=
  VObj {[ "contractAddress" := contractAddress c;
          "entrypoint" := VStr (entrypoint c);
          "calldata" := calldata c ]}.

(** Calling a closure with the argument list [rest] (the rest parameter
    [...args] of the source); [contract] is the
    instance the closure was built for, in its state at the time of the
    call. *)
Definition apply (contract : Contract) (f : func) (rest : list value) : M value :=
  match f with
  | FCall functionAbi =>
      params <- splitArgsAndOptions rest ;;
      call contract (name functionAbi) (VArr ∅ (args params))
        (VObj (spread (options params)
               ∪ {[ "parseRequest" := VBool true; "parseResponse" := VBool true ]}))
  | FInvoke functionAbi =>
      params <- splitArgsAndOptions rest ;;
      invoke contract (name functionAbi) (VArr ∅ (args params))
        (VObj (spread (options params) ∪ {[ "parseRequest" := VBool true ]}))
  | FPopulate functionAbi =>
      c <- populate contract (name functionAbi) (VArr ∅ rest) ;;
      ret (call_object c)
  | FEstimate functionAbi =>
      estimate contract (name functionAbi) (VArr ∅ rest)
  end.

(** ** The constructor *)

Definition with_functions (m : gmap string func) (this : Contract) : Contract :=
  {| abi := abi this; providerOrAccount := providerOrAccount this;
     own := own this; readonly := readonly this;
     functions := m; callStatic := callStatic this;
     populateTransaction := populateTransaction this;
     estimateFee := estimateFee this |}.

Definition with_callStatic (m : gmap string func) (this : Contract) : Contract :=
  {| abi := abi this; providerOrAccount := providerOrAccount this;
     own := own this; readonly := readonly this;
     functions := functions this; callStatic := m;
     populateTransaction := populateTransaction this;
     estimateFee := estimateFee this |}.

Definition with_populateTransaction (m : gmap string func) (this : Contract)
  : Contract :=
  {| abi := abi this; providerOrAccount := providerOrAccount this;
     own := own this; readonly := readonly this;
     functions := functions this; callStatic := callStatic this;
     populateTransaction := m;
     estimateFee := estimateFee this |}.

Definition with_estimateFee (m : gmap string func) (this : Contract) : Contract :=
  {| abi := abi this; providerOrAccount := providerOrAccount this;
     own := own this; readonly := readonly this;
     functions := functions this; callStatic := callStatic this;
     populateTransaction := populateTransaction this;
     estimateFee := m |}.

(** The body of [this.abi.forEach((abiElement) => ...)]: five guarded
    [Object.defineProperty] calls, one per place a method is exposed. *)
Definition bind_entry (this : Contract) (abiElement : AbiEntry) : Contract :=
  if negb (String.eqb (type abiElement) "function") then this
  else
    let signature := name abiElement in
    let this :=
      if negb (member_truthy (this_member this signature))
      then define_own signature (buildDefault this abiElement) this
      else this in
    let this :=
      if negb (member_truthy (collection_member (functions this) signature))
      then with_functions
             (<[signature := buildDefault this abiElement]> (functions this)) this
      else this in
    let this :=
      if negb (member_truthy (collection_member (callStatic this) signature))
      then with_callStatic
             (<[signature := buildCall this abiElement]> (callStatic this)) this
      else this in
    let this :=
      if negb (member_truthy
                 (collection_member (populateTransaction this) signature))
      then with_populateTransaction
             (<[signature := buildPopulate this abiElement]>
                (populateTransaction this)) this
      else this in
    if negb (member_truthy (collection_member (estimateFee this) signature))
    then with_estimateFee
           (<[signature := buildEstimate this abiElement]> (estimateFee this)) this
    else this.

(** [address && address.toLowerCase()]: a falsy address is kept as it is,
    a string is lowered by the [toLowerCase] of the language; any other value
    is taken to have no [toLowerCase] function of its own, so the call
    raises. *)
Definition lowered (address : value) : M value :=
  if truthy address then
    match address with
    | VStr s => ret (VStr (toLowerCase s))
    | _ => throw (TypeError "address.toLowerCase is not a function")
    end
  else ret address.

(** [new Contract(abi, address, providerOrAccount)]; the caller passes the
    backend, [defaultProvider] included.  The helper objects the constructor
    creates ([new CallData(abi)], [CallData.getAbiStruct(abi)]) are not part
    of the state kept here, and creating them is not logged. *)
Definition new_Contract (abi : Abi) (address : value)
    (providerOrAccount : Backend) : M Contract :=
  address <- lowered address ;;
  let this := {| abi := abi; providerOrAccount := providerOrAccount;
                 own := {[ "address" := address ]}; readonly := ∅;
                 functions := ∅; callStatic := ∅;
                 populateTransaction := ∅; estimateFee := ∅ |} in
  ret (fold_left bind_entry abi this).

(** ** The factory *)

Record ContractFactory := {
  compiledContract : CompiledContract;
  account : Backend;
  factory_abi : Abi;
  classHash : value;
  casm : value;
  compiledClassHash : value
}.

Definition deployment_failed : string := "Deployment of the contract failed".

(** [deploy(...args)] over the splitter it imports.  The factory imports
    [splitArgsAndOptions] from [./default], which the [default.ts] at hand
    does not export, and expects of it what that file's splitter does not
    give: an [options] field left [undefined] when no options record is
    found (the default [{ parseRequest: true }] of the destructuring replaces
    [undefined] only) and an [addressSalt] option.  The imported splitter is
    therefore the parameter [split]. *)
Definition deploy_with (split : list value -> M Params)
    (this : ContractFactory) (rest : list value) : M Contract :=
  params <- split rest ;;
  let param := VArr ∅ (args params) in
  let options :=
    default_to (VObj {[ "parseRequest" := VBool true ]}) (options params) in
  constructorCalldata <- getCalldata param
    (if truthy (get options "parseRequest") then
       callData_validate (factory_abi this) DEPLOY "constructor" param ;;;
       callData_compileNamed (factory_abi this) "constructor" param
     else
       warn "Call skipped parsing but provided rawArgs, possible malfunction request" ;;;
       ret param) ;;
  let payload := {| dp_contract := compiledContract this;
                    dp_casm := casm this;
                    dp_classHash := classHash this;
                    dp_compiledClassHash := compiledClassHash this;
                    dp_constructorCalldata := constructorCalldata;
                    dp_salt := get options "addressSalt" |} in
  match declareAndDeploy (account this) with
  | None => throw (TypeError "this.account.declareAndDeploy is not a function")
  | Some declareAndDeploy =>
      emit (EvDeclareAndDeploy payload) ;;;
      r <- lift (declareAndDeploy payload) ;;
      assert (truthy (contract_address r)) deployment_failed ;;;
      contractInstance <-
        new_Contract (compiled_abi (compiledContract this))
                     (contract_address r) (account this) ;;
      assign "deployTransactionHash" (transaction_hash r) contractInstance
  end.

(** [deploy] with the splitter of the [default.ts] at hand. *)
Definition deploy (this : ContractFactory) (rest : list value) : M Contract :=
  deploy_with splitArgsAndOptions this rest.

End Dispatch.

(** ** Observations on the log *)

(** [quiet P m]: no event of the kind [P] is in the log of [m]. *)
Definition quiet {A} (P : event -> bool) (m : M A) : Prop :=
  Forall (fun ev => P ev = false) (trace m).

(** The read path of the backend. *)
Definition is_read (ev : event) : bool :=
  match ev with EvCallContract _ _ => true | _ => false end.

(** The write path of the backend, through an account or directly. *)
Definition is_write (ev : event) : bool :=
  match ev with EvExecute _ _ _ | EvInvokeFunction _ _ _ => true | _ => false end.

(** Validation and compilation of a request by the calldata helper. *)
Definition is_request_helper (ev : event) : bool :=
  match ev with EvValidate _ _ _ | EvCompile _ => true | _ => false end.

(** Any request to the backend. *)
Definition is_backend (ev : event) : bool :=
  match ev with
  | EvCallContract _ _ | EvExecute _ _ _ | EvInvokeFunction _ _ _
  | EvEstimateInvokeFee _ | EvDeclareAndDeploy _ | EvWaitForTransaction _ => true
  | _ => false
  end.

(** The Call objects handed to the backend, in order. *)
Definition sent_calls (t : list event) : list Call :=
  omap (fun ev => match ev with
                  | EvCallContract c _ | EvExecute c _ _
                  | EvInvokeFunction c _ _ | EvEstimateInvokeFee c => Some c
                  | _ => None
                  end) t.

(** The constructor calldata handed to [declareAndDeploy]. *)
Definition deployed_calldata (t : list event) : list value :=
  omap (fun ev => match ev with
                  | EvDeclareAndDeploy p => Some (dp_constructorCalldata p)
                  | _ => None
                  end) t.

(** [v?.compiled] is truthy: [v] carries the tag of compiled Calldata. *)
Definition tagged (v : value) : bool := truthy (get_opt v "compiled").

(** The Calldata an [args] value carries, if any: the value itself when it
    is tagged, else its first element when that is tagged. *)
Definition precompiled (args : value) : option value :=
  if tagged args then Some args
  else match args with
       | VArr _ (first :: _) => if tagged first then Some first else None
       | VObj props =>
           match props !! "0" with
           | Some first => if tagged first then Some first else None
           | None => None
           end
       | _ => None
       end.

(** [k] is an own key of the record. *)
Definition has_key (props : gmap string value) (k : string) : bool :=
  bool_decide (is_Some (props !! k)).

(** The write options of the interface description: the keys [invoke]
    destructures from its overrides. *)
Definition write_option_names : list string :=
  ["maxFee"; "nonce"; "signature"; "parseRequest"].

(** The splitter over an arbitrary vocabulary; [splitArgsAndOptions] is the
    instance at [option_names]. *)
Definition split_with (keys : list string) (args : list value) : M Params :=
  let lastArg := from_option (last args) in
  found <- (if String.eqb (typeof lastArg) "object"
            then some_in keys lastArg else ret false) ;;
  if found
  then ret {| args := removelast args; options := lastArg |}
  else ret {| args := args; options := VObj ∅ |}.

(** The failure of the splitter on a trailing [null]. *)
Definition in_null : error :=
  TypeError "Cannot use 'in' operator to search for 'blockIdentifier' in null".

(** The tail of [invoke]: the choice between [execute] and [invokeFunction]. *)
Definition dispatch_invocation (this : Contract) (method : string)
    (invocation : Call) (o : value) : M value :=
  match execute (providerOrAccount this) with
  | Some execute =>
      emit (EvExecute invocation (get o "maxFee") (get o "nonce")) ;;;
      lift (execute invocation (get o "maxFee") (get o "nonce"))
  | None =>
      if negb (truthy (get o "nonce")) then throw (Error nonce_required)
      else
        warn ("Invoking " ++ method
              ++ " without an account. This will not work on a public node.") ;;;
        emit (EvInvokeFunction invocation (get o "signature") (get o "nonce")) ;;;
        lift (invokeFunction (providerOrAccount this) invocation
                (get o "signature") (get o "nonce"))
  end.

(** [abiElement.type === 'function'] *)
Definition is_function (abiElement : AbiEntry) : bool :=
  String.eqb (type abiElement) "function".

(** The part of [deploy] after the constructor calldata is resolved: the
    request to the account, the check of the address, the new instance. *)
Definition finish_deploy `{CallData} `{StringRuntime} (this : ContractFactory)
    (options constructorCalldata : value) : M Contract :=
  let payload := {| dp_contract := compiledContract this;
                    dp_casm := casm this;
                    dp_classHash := classHash this;
                    dp_compiledClassHash := compiledClassHash this;
                    dp_constructorCalldata := constructorCalldata;
                    dp_salt := get options "addressSalt" |} in
  match declareAndDeploy (account this) with
  | None => throw (TypeError "this.account.declareAndDeploy is not a function")
  | Some declareAndDeploy =>
      emit (EvDeclareAndDeploy payload) ;;;
      r <- lift (declareAndDeploy payload) ;;
      assert (truthy (contract_address r)) deployment_failed ;;;
      contractInstance <-
        new_Contract (compiled_abi (compiledContract this))
                     (contract_address r) (account this) ;;
      assign "deployTransactionHash" (transaction_hash r) contractInstance
  end.

(** The constructor calldata [deploy] resolves from its argument list. *)
Definition constructor_calldata `{CallData} (this : ContractFactory)
    (params : Params) : M value :=
  let param := VArr ∅ (args params) in
  let options :=
    default_to (VObj {[ "parseRequest" := VBool true ]}) (options params) in
  getCalldata param
    (if truthy (get options "parseRequest") then
       callData_validate (factory_abi this) DEPLOY "constructor" param ;;;
       callData_compileNamed (factory_abi this) "constructor" param
     else
       warn "Call skipped parsing but provided rawArgs, possible malfunction request" ;;;
       ret param).

(** ** Fixtures

    A calldata helper that accepts everything and tags what it compiles, a
    plain provider, an account, and a small ABI: the concrete inputs the
    statements below are evaluated on. *)

Definition tag (v : value) : value :=
  match v with
  | VArr props elems => VArr (<["compiled" := VBool true]> props) elems
  | _ => v
  end.

Definition tagging_CallData : CallData :=
  {| validate _ _ _ _ := Ok tt;
     compile _ args _ := Ok (tag args);
     compileNamed _ _ args := Ok (tag args);
     parse _ _ raw := Ok raw;
     format _ _ raw _ := Ok raw |}.

Definition sample_response : value := VObj {[ "result" := VArr ∅ [VNum 7] ]}.
Definition sample_receipt : value := VObj {[ "transaction_hash" := VStr "0xabc" ]}.

Definition sample_provider : Backend :=
  {| callContract _ _ := Ok sample_response;
     invokeFunction _ _ _ := Ok sample_receipt;
     waitForTransaction _ := Ok tt;
     execute := None;
     estimateInvokeFee := None;
     declareAndDeploy := None |}.

Definition sample_account : Backend :=
  {| callContract _ _ := Ok sample_response;
     invokeFunction _ _ _ := Ok sample_receipt;
     waitForTransaction _ := Ok tt;
     execute := Some (fun _ _ _ => Ok sample_receipt);
     estimateInvokeFee := Some (fun _ => Ok (VObj {[ "overall_fee" := VNum 5 ]}));
     declareAndDeploy :=
       Some (fun _ => Ok {| contract_address := VStr "0xC0FFEE";
                            transaction_hash := VStr "0xabc" |}) |}.

Definition function_entry (n : string) (mutability : option string) : AbiEntry :=
  {| type := "function"; name := n; inputs := Some []; outputs := Some [];
     members := None; stateMutability := mutability; state_mutability := None |}.

Definition sample_abi : Abi :=
  [function_entry "get_balance" (Some "view"); function_entry "set_balance" None].

(** The instance [new Contract(sample_abi, address, backend)] builds. *)
Definition sample_contract (address : value) (backend : Backend) : Contract :=
  fold_left bind_entry sample_abi
    {| abi := sample_abi; providerOrAccount := backend;
       own := {[ "address" := address ]}; readonly := ∅;
       functions := ∅; callStatic := ∅;
       populateTransaction := ∅; estimateFee := ∅ |}.

Definition sample_calldata : value :=
  VArr {[ "compiled" := VBool true ]} [VStr "1"; VStr "2"].

Definition provider_contract : Contract :=
  sample_contract (VStr "0x1") sample_provider.

Definition account_contract : Contract :=
  sample_contract (VStr "0x1") sample_account.

(** An instance created without an address. *)
Definition unattached_contract : Contract :=
  sample_contract VUndefined sample_account.

(** An instance created with the empty string for address, before binding. *)
Definition blank_instance : Contract :=
  {| abi := [function_entry "address" None]; providerOrAccount := sample_provider;
     own := {[ "address" := VStr "" ]}; readonly := ∅;
     functions := ∅; callStatic := ∅;
     populateTransaction := ∅; estimateFee := ∅ |}.

Definition sample_factory : ContractFactory :=
  {| compiledContract := {| compiled_abi := sample_abi |};
     account := sample_account;
     factory_abi := sample_abi;
     classHash := VUndefined;
     casm := VUndefined;
     compiledClassHash := VUndefined |}.

(** ** The rest of the factory *)

(** The parameter record of the factory's constructor; [abi] is optional. *)
Record CFParams := {
  params_compiledContract : CompiledContract;
  params_account : Backend;
  params_casm : value;
  params_classHash : value;
  params_compiledClassHash : value;
  params_abi : option Abi
}.

(** [new ContractFactory(params)]: [this.abi = params.abi ??
    params.compiledContract.abi]. *)
Definition new_ContractFactory (params : CFParams) : ContractFactory :=
  {| compiledContract := params_compiledContract params;
     account := params_account params;
     casm := params_casm params;
     factory_abi := match params_abi params with
                    | Some abi => abi
                    | None => compiled_abi (params_compiledContract params)
                    end;
     classHash := params_classHash params;
     compiledClassHash := params_compiledClassHash params |}.

(** [ContractFactory.connect(account)] *)
Definition ContractFactory_connect (this : ContractFactory) (account : Backend)
  : ContractFactory :=
  {| compiledContract := compiledContract this;
     account := account;
     casm := casm this;
     factory_abi := factory_abi this;
     classHash := classHash this;
     compiledClassHash := compiledClassHash this |}.

(** [ContractFactory.attach(address)] *)
Definition ContractFactory_attach `{StringRuntime} (this : ContractFactory)
    (address : value) : M Contract :=
  new_Contract (factory_abi this) address (account this).

(** ** Further observations *)

(** The payload [deploy] sends for the options and the calldata it has. *)
Definition payload_of (this : ContractFactory) (options cd : value)
  : DeployPayload :=
  {| dp_contract := compiledContract this;
     dp_casm := casm this;
     dp_classHash := classHash this;
     dp_compiledClassHash := compiledClassHash this;
     dp_constructorCalldata := cd;
     dp_salt := get options "addressSalt" |}.

(** The failure of [x.result] on an answer that is [undefined] or [null]. *)
Definition no_answer (x : value) : error :=
  TypeError ("Cannot read properties of "
             ++ (if is_null x then "null" else "undefined")
             ++ " (reading 'result')").

(** The failure of [const { inputs } = undefined]. *)
Definition no_inputs : error :=
  TypeError "Cannot destructure property 'inputs' of undefined".

Definition is_validation (ev : event) : bool :=
  match ev with EvValidate _ _ _ => true | _ => false end.

Definition is_warning (ev : event) : bool :=
  match ev with EvWarn _ => true | _ => false end.

Definition is_digit (a : ascii) : bool :=
  let n := nat_of_ascii a in (Nat.leb 48 n && Nat.leb n 57)%bool.

(** The string begins with a decimal digit, as every array index does. *)
Definition starts_with_digit (s : string) : bool :=
  match s with
  | String a _ => is_digit a
  | EmptyString => false
  end.

(** The four operations exposed under the name [k] come from one function
    entry of the ABI, or the name is bound in none of the collections. *)
Definition bundled (entries : Abi) (this : Contract) (k : string) : Prop :=
  (functions this !! k = None /\ callStatic this !! k = None
   /\ populateTransaction this !! k = None /\ estimateFee this !! k = None)
  \/ exists e, In e entries /\ is_function e = true /\ name e = k
       /\ functions this !! k = Some (buildDefault this e)
       /\ callStatic this !! k = Some (FCall e)
       /\ populateTransaction this !! k = Some (FPopulate e)
       /\ estimateFee this !! k = Some (FEstimate e).

(** The instance and its [functions] collection hold the same closure
    under the name [k], or neither holds one. *)
Definition agrees (this : Contract) (k : string) : Prop :=
  own this !! k = VFun <$> functions this !! k.

(** An instance before the constructor's loop has run. *)
Definition unbound (abi : Abi) (address : value) (backend : Backend) : Contract :=
  {| abi := abi; providerOrAccount := backend;
     own := {[ "address" := address ]}; readonly := ∅;
     functions := ∅; callStatic := ∅;
     populateTransaction := ∅; estimateFee := ∅ |}.

(** An ABI with a struct, a constructor entry, two entries of one name and
    entries named like members of the prototypes. *)
Definition entry_of_type (t n : string) : AbiEntry :=
  {| type := t; name := n; inputs := Some []; outputs := Some [];
     members := None; stateMutability := None; state_mutability := None |}.

Definition crowded_abi : Abi :=
  [entry_of_type "struct" "Point";
   entry_of_type "constructor" "constructor";
   function_entry "transfer" None;
   function_entry "transfer" (Some "view");
   function_entry "attach" None;
   function_entry "toString" (Some "view")].

Definition crowded_contract : Contract :=
  fold_left bind_entry crowded_abi (unbound crowded_abi (VStr "0x1") sample_account).

(** A calldata helper that rejects every request. *)
Definition rejecting_CallData : CallData :=
  {| validate _ _ _ _ := Throw (Rejected "invalid arguments");
     compile _ args _ := Ok (tag args);
     compileNamed _ _ args := Ok (tag args);
     parse _ _ raw := Ok raw;
     format _ _ raw _ := Ok raw |}.

(** An account whose deployment answers without an address. *)
Definition failing_account : Backend :=
  {| callContract _ _ := Ok sample_response;
     invokeFunction _ _ _ := Ok sample_receipt;
     waitForTransaction _ := Ok tt;
     execute := Some (fun _ _ _ => Ok sample_receipt);
     estimateInvokeFee := None;
     declareAndDeploy :=
       Some (fun _ => Ok {| contract_address := VUndefined;
                            transaction_hash := VStr "0xabc" |}) |}.

Definition failing_factory : ContractFactory :=
  {| compiledContract := {| compiled_abi := sample_abi |};
     account := failing_account;
     factory_abi := sample_abi;
     classHash := VUndefined;
     casm := VUndefined;
     compiledClassHash := VUndefined |}.

(** An instance that still awaits its deployment. *)
Definition pending_contract : Contract :=
  set_own "deployTransactionHash" (VStr "0xabc") account_contract.

(** More values for the examples. *)
Definition view_entry : AbiEntry := function_entry "get_balance" (Some "view").
Definition write_entry : AbiEntry := function_entry "set_balance" None.
Definition raw_five : value := VArr ∅ [VNum 5].
Definition compiled_five : value := VArr {[ "compiled" := VBool true ]} [VNum 5].
Definition null_contract : Contract := sample_contract VNull sample_account.

Definition request_to (method : string) (cd : value) : Call :=
  {| contractAddress := VStr "0x1"; entrypoint := method; calldata := cd |}.

Definition sample_params : CFParams :=
  {| params_compiledContract := {| compiled_abi := sample_abi |};
     params_account := sample_account;
     params_casm := VUndefined;
     params_classHash := VUndefined;
     params_compiledClassHash := VUndefined;
     params_abi := Some crowded_abi |}.


(** ** The monad and the log *)

Lemma bind_ret {A B} (a : A) (k : A -> M B) : bind (ret a) k = k a.
Proof. unfold bind, ret. destruct (k a) as [t r]. reflexivity. Qed.

Lemma bind_throw {A B} (e : error) (k : A -> M B) : bind (throw e) k = throw e.
Proof. reflexivity. Qed.

Lemma bind_emit {B} (ev : event) (k : unit -> M B) :
  bind (emit ev) k = (ev :: trace (k tt), result (k tt)).
Proof. unfold bind, emit, trace, result. destruct (k tt). reflexivity. Qed.

Lemma trace_bind_ok {A B} (m : M A) (k : A -> M B) (a : A) :
  result m = Ok a -> trace (bind m k) = (trace m ++ trace (k a))%list.
Proof.
  destruct m as [t r]. simpl. intros ->. unfold bind.
  destruct (k a). reflexivity.
Qed.

Lemma result_bind_ok {A B} (m : M A) (k : A -> M B) (a : A) :
  result m = Ok a -> result (bind m k) = result (k a).
Proof.
  destruct m as [t r]. simpl. intros ->. unfold bind.
  destruct (k a). reflexivity.
Qed.

Lemma bind_fail {A B} (m : M A) (k : A -> M B) (e : error) :
  result m = Throw e -> bind m k = (trace m, Throw e).
Proof. destruct m as [t r]. simpl. intros ->. reflexivity. Qed.

Lemma quiet_ret {A} P (a : A) : quiet P (ret a).
Proof. constructor. Qed.

Lemma quiet_throw {A} P (e : error) : quiet P (@throw A e).
Proof. constructor. Qed.

Lemma quiet_lift {A} P (o : outcome A) : quiet P (lift o).
Proof. constructor. Qed.

Lemma quiet_emit P (ev : event) : P ev = false -> quiet P (emit ev).
Proof. intros H. repeat constructor. exact H. Qed.

Lemma quiet_assert P (b : bool) (message : string) : quiet P (assert b message).
Proof. destruct b; constructor. Qed.

Lemma quiet_bind {A B} P (m : M A) (k : A -> M B) :
  quiet P m -> (forall a, quiet P (k a)) -> quiet P (bind m k).
Proof.
  unfold quiet. destruct m as [t [a|e]]; simpl; intros Hm Hk.
  - specialize (Hk a). destruct (k a) as [t' r]. simpl in *.
    apply Forall_app. split; assumption.
  - exact Hm.
Qed.

Create HintDb quiet.
#[local] Hint Resolve quiet_ret quiet_throw quiet_lift quiet_assert : quiet.

Ltac quiet_step :=
  match goal with
  | |- quiet _ (bind _ _) => apply quiet_bind; [| intros ?]
  | |- quiet _ (emit _) => apply quiet_emit; reflexivity
  | |- quiet _ (warn _) => apply quiet_emit; reflexivity
  | |- quiet _ (if ?b then _ else _) => destruct b
  | |- quiet _ (match ?x with _ => _ end) => destruct x
  | |- quiet _ _ => solve [auto with quiet]
  end.

Ltac quiet_tac := repeat quiet_step.

(** ** The splitter *)

Lemma some_in_record (keys : list string) (props : gmap string value) :
  some_in keys (VObj props) = ret (existsb (has_key props) keys).
Proof.
  induction keys as [|k keys IH]; simpl; [reflexivity|].
  fold (has_key props k). destruct (has_key props k); [reflexivity|exact IH].
Qed.

Lemma some_in_silent (keys : list string) (v : value) : trace (some_in keys v) = [].
Proof.
  induction keys as [|k keys IH]; simpl; [reflexivity|].
  destruct (has_property k v) as [[|]|]; auto.
Qed.

Lemma split_with_silent (keys : list string) (rest : list value) :
  trace (split_with keys rest) = [].
Proof.
  unfold split_with.
  destruct (String.eqb _ "object").
  - pose proof (some_in_silent keys (from_option (last rest))) as H.
    destruct (some_in keys _) as [t [[|]|e]]; simpl in *; subst; reflexivity.
  - reflexivity.
Qed.

Lemma splitArgsAndOptions_split_with (rest : list value) :
  splitArgsAndOptions rest = split_with option_names rest.
Proof. reflexivity. Qed.

Lemma splitArgsAndOptions_silent (rest : list value) :
  trace (splitArgsAndOptions rest) = [].
Proof. apply split_with_silent. Qed.

Lemma split_with_record (keys : list string) (init : list value)
    (props : gmap string value) :
  split_with keys (init ++ [VObj props]) =
  ret (if existsb (has_key props) keys
       then {| args := init; options := VObj props |}
       else {| args := init ++ [VObj props]; options := VObj ∅ |}).
Proof.
  unfold split_with. rewrite last_snoc. simpl.
  rewrite some_in_record, bind_ret, removelast_last.
  destruct (existsb _ _); reflexivity.
Qed.

Lemma splitArgsAndOptions_null (init : list value) :
  splitArgsAndOptions (init ++ [VNull]) = throw in_null.
Proof. unfold splitArgsAndOptions. rewrite last_snoc. reflexivity. Qed.

Lemma splitArgsAndOptions_empty :
  splitArgsAndOptions [] = ret {| args := []; options := VObj ∅ |}.
Proof. reflexivity. Qed.

(** A trailing value that is not an object stays a positional argument. *)
Lemma splitArgsAndOptions_primitive (init : list value) (v : value) :
  typeof v <> "object" ->
  splitArgsAndOptions (init ++ [v]) =
  ret {| args := init ++ [v]; options := VObj ∅ |}.
Proof.
  intros Hv. unfold splitArgsAndOptions. rewrite last_snoc. simpl.
  destruct (String.eqb_spec (typeof v) "object"); [contradiction|reflexivity].
Qed.

(** ** [getCalldata] *)

Lemma tagged_truthy (v : value) : tagged v = true -> truthy v = true.
Proof.
  unfold tagged, get_opt. destruct v; simpl; intros H;
    try discriminate H; reflexivity.
Qed.

Lemma tagged_not_undefined (v : value) : tagged v = true -> v <> VUndefined.
Proof. intros H ->. discriminate. Qed.

Lemma precompiled_tagged (args cd : value) :
  precompiled args = Some cd -> tagged cd = true.
Proof.
  unfold precompiled. destruct (tagged args) eqn:Ha.
  - intros [= <-]. exact Ha.
  - destruct args as [| | | | |props|props [|first elems]|]; try discriminate.
    + destruct (props !! "0") as [first|]; [|discriminate].
      destruct (tagged first) eqn:Hf; [|discriminate]. intros [= <-]. exact Hf.
    + destruct (tagged first) eqn:Hf; [|discriminate]. intros [= <-]. exact Hf.
Qed.

Lemma precompiled_not_undefined (args cd : value) :
  precompiled args = Some cd -> default_to (VArr ∅ []) args = args.
Proof. destruct args; try reflexivity. discriminate. Qed.

(** With tagged Calldata in [args] the callback is never run. *)
Lemma getCalldata_precompiled (args cd : value) (callback : M value) :
  precompiled args = Some cd -> getCalldata args callback = ret cd.
Proof.
  unfold precompiled, getCalldata. fold (tagged args).
  destruct (tagged args) eqn:Ha; [intros [= <-]; reflexivity|].
  destruct args as [| | | | |props|props [|first elems]|]; try discriminate;
    simpl.
  - destruct (props !! "0") as [first|]; [|discriminate]. simpl.
    fold (tagged first). destruct (tagged first); [|discriminate].
    intros [= <-]. reflexivity.
  - fold (tagged first). destruct (tagged first); [|discriminate].
    intros [= <-]. reflexivity.
Qed.

(** Without it the callback decides, unless reading [args[0]] raises. *)
Lemma getCalldata_raw (args : value) (callback : M value) :
  precompiled args = None ->
  getCalldata args callback =
  if nullish args
  then throw (TypeError "Cannot read properties of undefined (reading '0')")
  else callback.
Proof.
  unfold precompiled, getCalldata. fold (tagged args).
  destruct (tagged args) eqn:Ha; [discriminate|].
  destruct args as [| |b|n|[|a s]|props|props [|first elems]|f]; simpl;
    try reflexivity; try (intros _; destruct callback; reflexivity).
  - destruct (props !! "0") as [first|]; simpl.
    + fold (tagged first). destruct (tagged first); [discriminate|].
      intros _. destruct callback; reflexivity.
    + intros _. destruct callback; reflexivity.
  - fold (tagged first). destruct (tagged first); [discriminate|].
    intros _. destruct callback; reflexivity.
Qed.

Lemma first_element_silent (args : value) : trace (first_element args) = [].
Proof. destruct args as [| | | |[|a s]|props|props elems|]; reflexivity. Qed.

Lemma getCalldata_quiet P (args : value) (callback : M value) :
  quiet P callback -> quiet P (getCalldata args callback).
Proof.
  intros Hc. unfold getCalldata.
  destruct (truthy (get_opt args "compiled")); [apply quiet_ret|].
  apply quiet_bind.
  - unfold quiet. rewrite first_element_silent. constructor.
  - intros first. destruct (truthy _); [apply quiet_ret|exact Hc].
Qed.

Lemma splitArgsAndOptions_quiet P (rest : list value) :
  quiet P (splitArgsAndOptions rest).
Proof. unfold quiet. rewrite splitArgsAndOptions_silent. constructor. Qed.

#[local] Hint Resolve splitArgsAndOptions_quiet : quiet.

Ltac quiet_methods :=
  repeat first
    [ apply getCalldata_quiet
    | quiet_step ].

Section Properties.
Context `{CD : CallData} `{RT : StringRuntime}.

(** C7: a trailing record with at least one recognized option key is taken
    as the options object and the values before it are the positional
    arguments; a trailing record with none stays a positional argument and
    the options object is empty.  So [f(1, 2, {maxFee: 10})] splits into
    [1, 2] and [{maxFee: 10}], [f(1, 2, {notAnOption: true})] into three
    positional arguments and [{}], and a bound call passes exactly these
    on to [call]. *)
Theorem splitArgsAndOptions_trailing_record
    (contract : Contract) (functionAbi : AbiEntry)
    (init : list value) (props : gmap string value) :
  splitArgsAndOptions (init ++ [VObj props]) =
    ret (if existsb (has_key props) option_names
         then {| args := init; options := VObj props |}
         else {| args := init ++ [VObj props]; options := VObj ∅ |})
  /\ splitArgsAndOptions [VNum 1; VNum 2; VObj {[ "maxFee" := VNum 10 ]}] =
       ret {| args := [VNum 1; VNum 2];
              options := VObj {[ "maxFee" := VNum 10 ]} |}
  /\ splitArgsAndOptions [VNum 1; VNum 2; VObj {[ "notAnOption" := VBool true ]}] =
       ret {| args := [VNum 1; VNum 2; VObj {[ "notAnOption" := VBool true ]}];
              options := VObj ∅ |}
  /\ apply contract (buildCall contract functionAbi)
       [VNum 1; VNum 2; VObj {[ "maxFee" := VNum 10 ]}] =
     call contract (name functionAbi) (VArr ∅ [VNum 1; VNum 2])
       (VObj {[ "maxFee" := VNum 10; "parseRequest" := VBool true;
                "parseResponse" := VBool true ]})
  /\ apply contract (buildCall contract functionAbi)
       [VNum 1; VNum 2; VObj {[ "notAnOption" := VBool true ]}] =
     call contract (name functionAbi)
       (VArr ∅ [VNum 1; VNum 2; VObj {[ "notAnOption" := VBool true ]}])
       (VObj {[ "parseRequest" := VBool true; "parseResponse" := VBool true ]}).
Proof.
  split; [apply split_with_record|].
  split; [reflexivity|]. split; [reflexivity|].
  split.
  - unfold buildCall, apply.
    change [VNum 1; VNum 2; VObj {[ "maxFee" := VNum 10 ]}]
      with ([VNum 1; VNum 2] ++ [VObj {[ "maxFee" := VNum 10 ]}])%list.
    rewrite splitArgsAndOptions_split_with, split_with_record, bind_ret.
    reflexivity.
  - unfold buildCall, apply.
    change [VNum 1; VNum 2; VObj {[ "notAnOption" := VBool true ]}]
      with ([VNum 1; VNum 2] ++ [VObj {[ "notAnOption" := VBool true ]}])%list.
    rewrite splitArgsAndOptions_split_with, split_with_record, bind_ret.
    reflexivity.
Qed.

(** ** Routing *)

Lemma call_quiet_write (this : Contract) (method : string) (args o : value) :
  quiet is_write (call this method args o).
Proof.
  unfold call, destructure, find_inputs, callData_validate, callData_compile,
    callData_format, callData_parse, read_property.
  quiet_methods.
Qed.

Lemma invoke_quiet_read (this : Contract) (method : string) (args o : value) :
  quiet is_read (invoke this method args o).
Proof.
  unfold invoke, destructure, find_inputs, callData_validate, callData_compile.
  quiet_methods.
Qed.

(** C1: the default operation of a function entry runs [Contract.call] when
    the entry's [stateMutability] or [state_mutability] is ['view'] and
    [Contract.invoke] otherwise, on the arguments the splitter leaves; the
    choice is a function of the entry alone, and the operation of a view
    entry never reaches the write path of the backend, that of any other
    entry never the read path. *)
Theorem buildDefault_routing
    (contract : Contract) (functionAbi : AbiEntry) (rest : list value) :
  apply contract (buildDefault contract functionAbi) rest =
    (params <- splitArgsAndOptions rest ;;
     if is_view functionAbi
     then call contract (name functionAbi) (VArr ∅ (args params))
            (VObj (spread (options params)
                   ∪ {[ "parseRequest" := VBool true;
                        "parseResponse" := VBool true ]}))
     else invoke contract (name functionAbi) (VArr ∅ (args params))
            (VObj (spread (options params) ∪ {[ "parseRequest" := VBool true ]})))
  /\ quiet (if is_view functionAbi then is_write else is_read)
       (apply contract (buildDefault contract functionAbi) rest)
  /\ is_view functionAbi =
       (bool_decide (stateMutability functionAbi = Some "view")
        || bool_decide (state_mutability functionAbi = Some "view")).
Proof.
  unfold buildDefault, buildCall, buildInvoke.
  destruct (is_view functionAbi) eqn:Hview; simpl.
  - split; [reflexivity|]. split; [|exact (eq_sym Hview)].
    apply quiet_bind; [auto with quiet|]. intros params. apply call_quiet_write.
  - split; [reflexivity|]. split; [|exact (eq_sym Hview)].
    apply quiet_bind; [auto with quiet|]. intros params. apply invoke_quiet_read.
Qed.

(** ** A trailing [null] *)

(** A default or pure-read operation called with a trailing [null] throws
    the TypeError of [in] on [null], with an empty log. *)
Lemma trailing_null_in_splitter
    (contract : Contract) (functionAbi : AbiEntry) (init : list value) :
  apply contract (buildCall contract functionAbi) (init ++ [VNull]) = throw in_null
  /\ apply contract (buildInvoke contract functionAbi) (init ++ [VNull]) = throw in_null
  /\ apply contract (buildDefault contract functionAbi) (init ++ [VNull]) = throw in_null.
Proof.
  unfold buildDefault, buildCall, buildInvoke.
  assert (Hc : apply contract (FCall functionAbi) (init ++ [VNull]) = throw in_null)
    by (unfold apply; rewrite splitArgsAndOptions_null; reflexivity).
  assert (Hi : apply contract (FInvoke functionAbi) (init ++ [VNull]) = throw in_null)
    by (unfold apply; rewrite splitArgsAndOptions_null; reflexivity).
  repeat split; try assumption.
  destruct (is_view functionAbi); assumption.
Qed.

(** ** Pre-compiled Calldata *)

Lemma bind_ext {A B} (m : M A) (k k' : A -> M B) :
  (forall a, k a = k' a) -> bind m k = bind m k'.
Proof. intros H. destruct m as [t [a|e]]; simpl; [rewrite H|]; reflexivity. Qed.

Lemma bind_lift {A B} (o : outcome A) (k : A -> M B) :
  bind (lift o) k = match o with Ok a => k a | Throw e => throw e end.
Proof. destruct o as [a|e]; [apply bind_ret|reflexivity]. Qed.

Lemma bind_assert {B} (b : bool) (message : string) (k : unit -> M B) :
  bind (assert b message) k = if b then k tt else throw (Error message).
Proof. destruct b; [apply bind_ret|reflexivity]. Qed.

Lemma is_null_false (v : value) : v <> VNull -> is_null v = false.
Proof. destruct v; try reflexivity. intros H. contradiction. Qed.

(** [call] on tagged Calldata, step by step. *)
Lemma call_precompiled (this : Contract) (method : string) (args cd o : value) :
  precompiled args = Some cd ->
  call this method args o =
  (o <- destructure o ;;
   assert (negb (is_null (address this))) not_connected ;;;
   let request := {| contractAddress := address this;
                     calldata := cd; entrypoint := method |} in
   emit (EvCallContract request (get o "blockIdentifier")) ;;;
   x <- lift (callContract (providerOrAccount this) request
                (get o "blockIdentifier")) ;;
   if negb (truthy (default_to (VBool true) (get o "parseResponse")))
   then read_property x "result"
   else if truthy (get o "formatResponse")
   then raw <- read_property x "result" ;;
        callData_format (abi this) method raw (get o "formatResponse")
   else raw <- read_property x "result" ;;
        callData_parse (abi this) method raw).
Proof.
  intros Hcd. unfold call. rewrite (precompiled_not_undefined _ _ Hcd).
  apply bind_ext. intros o'. apply bind_ext. intros _.
  rewrite (getCalldata_precompiled _ _ _ Hcd), bind_ret. reflexivity.
Qed.

Lemma sent_calls_quiet {A} (m : M A) :
  quiet is_backend m -> sent_calls (trace m) = [].
Proof.
  unfold quiet, sent_calls. induction 1 as [|ev t Hev _ IH]; [reflexivity|].
  destruct ev; simpl in *; try discriminate Hev; exact IH.
Qed.

Lemma trace_bind_emit {B} (ev : event) (k : unit -> M B) :
  trace (bind (emit ev) k) = ev :: trace (k tt).
Proof. rewrite bind_emit. reflexivity. Qed.

Lemma response_quiet (this : Contract) (method : string) (o : value)
    (r : outcome value) :
  quiet is_backend
    (x <- lift r ;;
     if negb (truthy (default_to (VBool true) (get o "parseResponse")))
     then read_property x "result"
     else if truthy (get o "formatResponse")
     then raw <- read_property x "result" ;;
          callData_format (abi this) method raw (get o "formatResponse")
     else raw <- read_property x "result" ;;
          callData_parse (abi this) method raw).
Proof. unfold callData_format, callData_parse, read_property. quiet_tac. Qed.

Lemma destructure_cases (o : value) :
  destructure o =
  if is_null o then throw (TypeError "Cannot destructure property of null")
  else ret (default_to (VObj ∅) o).
Proof. destruct o; reflexivity. Qed.

Lemma sent_calls_cons (ev : event) (t : list event) :
  sent_calls (ev :: t) =
  match ev with
  | EvCallContract c _ | EvExecute c _ _
  | EvInvokeFunction c _ _ | EvEstimateInvokeFee c => c :: sent_calls t
  | _ => sent_calls t
  end.
Proof. destruct ev; reflexivity. Qed.

Lemma call_precompiled_sent (this : Contract) (method : string) (args cd o : value) :
  precompiled args = Some cd ->
  sent_calls (trace (call this method args o)) =
  if is_null o || is_null (address this) then []
  else [{| contractAddress := address this; entrypoint := method;
           calldata := cd |}].
Proof.
  intros Hcd. rewrite (call_precompiled _ _ _ _ _ Hcd), destructure_cases.
  destruct (is_null o); [reflexivity|]. rewrite bind_ret, bind_assert.
  destruct (is_null (address this)); [reflexivity|]. cbn [negb orb].
  rewrite trace_bind_emit, sent_calls_cons.
  rewrite sent_calls_quiet by apply response_quiet. reflexivity.
Qed.

Lemma call_precompiled_quiet (this : Contract) (method : string)
    (args cd o : value) :
  precompiled args = Some cd -> quiet is_request_helper (call this method args o).
Proof.
  intros Hcd. rewrite (call_precompiled _ _ _ _ _ Hcd).
  unfold destructure, callData_format, callData_parse, read_property.
  quiet_tac.
Qed.

Lemma invoke_precompiled (this : Contract) (method : string) (args cd o : value) :
  precompiled args = Some cd ->
  invoke this method args o =
  (o <- destructure o ;;
   assert (negb (is_null (address this))) not_connected ;;;
   dispatch_invocation this method
     {| contractAddress := address this; calldata := cd; entrypoint := method |} o).
Proof.
  intros Hcd. unfold invoke. rewrite (precompiled_not_undefined _ _ Hcd).
  apply bind_ext. intros o'. apply bind_ext. intros _.
  rewrite (getCalldata_precompiled _ _ _ Hcd), bind_ret. reflexivity.
Qed.

Lemma dispatch_invocation_sent (this : Contract) (method : string)
    (invocation : Call) (o : value) :
  sent_calls (trace (dispatch_invocation this method invocation o)) =
  if bool_decide (is_Some (execute (providerOrAccount this)))
     || truthy (get o "nonce")
  then [invocation] else [].
Proof.
  unfold dispatch_invocation.
  destruct (execute (providerOrAccount this)) as [ex|].
  - rewrite trace_bind_emit, sent_calls_cons. reflexivity.
  - destruct (truthy (get o "nonce")); [|reflexivity]. cbn [negb].
    unfold warn. rewrite trace_bind_emit, sent_calls_cons.
    rewrite trace_bind_emit, sent_calls_cons. reflexivity.
Qed.

Lemma invoke_precompiled_sent (this : Contract) (method : string)
    (args cd o : value) :
  precompiled args = Some cd ->
  sent_calls (trace (invoke this method args o)) =
  if is_null o || is_null (address this) then []
  else if bool_decide (is_Some (execute (providerOrAccount this)))
          || truthy (get o "nonce")
  then [{| contractAddress := address this; entrypoint := method;
           calldata := cd |}]
  else [].
Proof.
  intros Hcd. rewrite (invoke_precompiled _ _ _ _ _ Hcd), destructure_cases.
  destruct (is_null o) eqn:Ho; [reflexivity|]. rewrite bind_ret, bind_assert.
  destruct (is_null (address this)); [reflexivity|]. cbn [negb orb].
  rewrite dispatch_invocation_sent.
  replace (get (default_to (VObj ∅) o) "nonce") with (get o "nonce")
    by (destruct o; reflexivity).
  reflexivity.
Qed.

Lemma invoke_precompiled_quiet (this : Contract) (method : string)
    (args cd o : value) :
  precompiled args = Some cd -> quiet is_request_helper (invoke this method args o).
Proof.
  intros Hcd. rewrite (invoke_precompiled _ _ _ _ _ Hcd).
  unfold destructure, dispatch_invocation. quiet_tac.
Qed.

Lemma find_inputs_silent (this : Contract) (method : string) :
  trace (find_inputs this method) = [].
Proof. unfold find_inputs. destruct (find _ _); reflexivity. Qed.

Lemma find_inputs_found (this : Contract) (method : string) :
  In method (map name (abi this)) ->
  exists inputs, find_inputs this method = ret inputs.
Proof.
  unfold find_inputs. intros Hin.
  destruct (find _ (abi this)) as [entry|] eqn:Hfind; [eauto|].
  apply in_map_iff in Hin as (entry & Hname & Hentry).
  apply (find_none _ _ Hfind) in Hentry. rewrite Hname, String.eqb_refl in Hentry.
  discriminate Hentry.
Qed.

Lemma populate_precompiled (this : Contract) (method : string) (args cd : value) :
  precompiled args = Some cd ->
  populate this method args =
  (_ <- find_inputs this method ;;
   ret {| contractAddress := address this; entrypoint := method;
          calldata := cd |}).
Proof.
  intros Hcd. unfold populate. rewrite (precompiled_not_undefined _ _ Hcd).
  apply bind_ext. intros inputs.
  rewrite (getCalldata_precompiled _ _ _ Hcd), bind_ret. reflexivity.
Qed.

(** C3: when [args], or else its first element, carries the tag of compiled
    Calldata, [call], [invoke] and [populate] never ask the helper to
    validate or compile, and every Call they hand to the backend or return
    holds that very Calldata; the Call is handed over or returned whenever
    the operation gets that far: for [call] with an address that is not
    [null], for [invoke] moreover with an account or a nonce, for [populate]
    with a method of the ABI. *)
Theorem precompiled_calldata_passthrough
    (this : Contract) (method : string) (args cd o : value) :
  precompiled args = Some cd ->
  let request := {| contractAddress := address this; entrypoint := method;
                    calldata := cd |} in
  (quiet is_request_helper (call this method args o)
   /\ Forall (fun c => c = request) (sent_calls (trace (call this method args o)))
   /\ (o <> VNull -> address this <> VNull ->
       sent_calls (trace (call this method args o)) = [request]))
  /\ (quiet is_request_helper (invoke this method args o)
      /\ Forall (fun c => c = request)
           (sent_calls (trace (invoke this method args o)))
      /\ (o <> VNull -> address this <> VNull ->
          is_Some (execute (providerOrAccount this))
          \/ truthy (get o "nonce") = true ->
          sent_calls (trace (invoke this method args o)) = [request]))
  /\ (trace (populate this method args) = []
      /\ (forall c, result (populate this method args) = Ok c -> c = request)
      /\ (In method (map name (abi this)) ->
          populate this method args = ret request)).
Proof.
  intros Hcd request. split; [|split].
  - split; [exact (call_precompiled_quiet _ _ _ _ _ Hcd)|].
    rewrite (call_precompiled_sent _ _ _ _ _ Hcd). split.
    + destruct (is_null o || is_null (address this)); repeat constructor.
    + intros Ho Ha. rewrite (is_null_false _ Ho), (is_null_false _ Ha).
      reflexivity.
  - split; [exact (invoke_precompiled_quiet _ _ _ _ _ Hcd)|].
    rewrite (invoke_precompiled_sent _ _ _ _ _ Hcd). split.
    + destruct (is_null o || is_null (address this)); [constructor|].
      destruct (_ || _); repeat constructor.
    + intros Ho Ha Hcap. rewrite (is_null_false _ Ho), (is_null_false _ Ha).
      cbn [orb].
      destruct Hcap as [Hex|Hn].
      * rewrite (bool_decide_eq_true_2 _ Hex). reflexivity.
      * rewrite Hn, orb_true_r. reflexivity.
  - rewrite (populate_precompiled _ _ _ _ Hcd).
    pose proof (find_inputs_silent this method) as Hsilent.
    split; [|split].
    + destruct (find_inputs this method) as [t [inputs|e]]; simpl in *;
        subst; reflexivity.
    + intros c. destruct (find_inputs this method) as [t [inputs|e]]; simpl.
      * intros [= <-]. reflexivity.
      * discriminate.
    + intros Hin. destruct (find_inputs_found _ _ Hin) as [inputs Hfound].
      rewrite Hfound, bind_ret. reflexivity.
Qed.

(** ** Estimation *)

Lemma default_to_idem (d v : value) :
  is_undefined d = false -> default_to d (default_to d v) = default_to d v.
Proof.
  intros Hd. unfold default_to. destruct (is_undefined v) eqn:Hv.
  - rewrite Hd. reflexivity.
  - rewrite Hv. reflexivity.
Qed.

Lemma populate_default (this : Contract) (method : string) (args : value) :
  populate this method (default_to (VArr ∅ []) args) = populate this method args.
Proof. unfold populate. rewrite default_to_idem by reflexivity. reflexivity. Qed.

Lemma precompiled_default (args : value) :
  precompiled (default_to (VArr ∅ []) args) = precompiled args.
Proof. destruct args; reflexivity. Qed.

Lemma populate_null (this : Contract) (method : string) (c : Call) :
  result (populate this method VNull) <> Ok c.
Proof.
  unfold populate, find_inputs. simpl.
  destruct (find _ _); simpl; discriminate.
Qed.

Lemma estimate_quiet (this : Contract) (method : string) (args : value) :
  estimateInvokeFee (providerOrAccount this) = None ->
  quiet is_backend (estimate this method args).
Proof.
  intros Hcap. unfold estimate, populate, find_inputs, callData_validate,
    callData_compile. rewrite Hcap.
  quiet_methods.
Qed.

Lemma estimate_never_succeeds (this : Contract) (method : string) (args : value) :
  estimateInvokeFee (providerOrAccount this) = None ->
  exists e, result (estimate this method args) = Throw e.
Proof.
  intros Hcap. unfold estimate. rewrite Hcap.
  repeat match goal with
  | |- exists e, result (bind ?m ?k) = Throw e =>
      let t := fresh "t" in let a := fresh "a" in let e := fresh "e" in
      let E := fresh "E" in
      destruct m as [t [a|e]] eqn:E;
      [ rewrite (result_bind_ok (t, Ok a) k a eq_refl)
      | rewrite (bind_fail (t, Throw e) k e eq_refl); eauto ]
  end.
  eauto.
Qed.

(** On a backend without [estimateInvokeFee], relative to what [populate]
    does: when the address is not [null], the arguments pass validation and
    [populate] on its own builds a Call with the log [t], [estimate] logs the
    validation of raw arguments, then [t], and fails with the error of the
    missing capability. *)
Lemma estimate_after_populate
    (this : Contract) (method : string) (args : value)
    (t : list event) (c : Call) :
  estimateInvokeFee (providerOrAccount this) = None ->
  address this <> VNull ->
  (precompiled args = None ->
   validate (abi this) INVOKE method (default_to (VArr ∅ []) args) = Ok tt) ->
  populate this method args = (t, Ok c) ->
  estimate this method args =
    ((match precompiled args with
      | Some _ => []
      | None => [EvValidate INVOKE method (default_to (VArr ∅ []) args)]
      end ++ t)%list,
     Throw (Error not_an_account))
  /\ quiet is_backend (estimate this method args).
Proof.
  intros Hcap Haddr Hvalid Hpop.
  split; [|exact (estimate_quiet _ _ _ Hcap)].
  unfold estimate. rewrite Hcap, bind_assert, (is_null_false _ Haddr).
  cbn [negb]. rewrite populate_default, Hpop.
  destruct (precompiled args) as [cd|] eqn:Hpre.
  - rewrite <- precompiled_default in Hpre.
    rewrite (getCalldata_precompiled _ _ _ Hpre), bind_ret.
    rewrite (tagged_truthy _ (precompiled_tagged _ _ Hpre)). cbn [negb].
    rewrite bind_ret. simpl. rewrite app_nil_r. reflexivity.
  - specialize (Hvalid eq_refl).
    pose proof Hpre as Hpre'. rewrite <- precompiled_default in Hpre'.
    rewrite (getCalldata_raw _ _ Hpre').
    destruct (nullish (default_to (VArr ∅ []) args)) eqn:Hn.
    + exfalso. destruct args; try discriminate Hn.
      apply (populate_null this method c). rewrite Hpop. reflexivity.
    + rewrite bind_ret. cbn [truthy negb]. unfold callData_validate.
      rewrite Hvalid. unfold bind, emit, lift, throw. simpl.
      rewrite app_nil_r. reflexivity.
Qed.

(** ** The address guard *)

(** The guard does reject the address [null]. *)
Lemma call_null_address (this : Contract) (method : string) (args o : value) :
  address this = VNull -> o <> VNull ->
  call this method args o = throw (Error not_connected).
Proof.
  intros Ha Ho. unfold call. rewrite destructure_cases, (is_null_false _ Ho).
  rewrite bind_ret, bind_assert, Ha. reflexivity.
Qed.

Lemma invoke_null_address (this : Contract) (method : string) (args o : value) :
  address this = VNull -> o <> VNull ->
  invoke this method args o = throw (Error not_connected).
Proof.
  intros Ha Ho. unfold invoke. rewrite destructure_cases, (is_null_false _ Ho).
  rewrite bind_ret, bind_assert, Ha. reflexivity.
Qed.

Lemma estimate_null_address (this : Contract) (method : string) (args : value) :
  address this = VNull ->
  estimate this method args = throw (Error not_connected).
Proof. intros Ha. unfold estimate. rewrite bind_assert, Ha. reflexivity. Qed.

Lemma estimate_precompiled (this : Contract) (method : string) (args cd : value)
    (fee : Call -> outcome value) :
  precompiled args = Some cd ->
  address this <> VNull ->
  In method (map name (abi this)) ->
  estimateInvokeFee (providerOrAccount this) = Some fee ->
  let request := {| contractAddress := address this; entrypoint := method;
                    calldata := cd |} in
  estimate this method args = ([EvEstimateInvokeFee request], fee request).
Proof.
  intros Hcd Ha Hin Hfee request. unfold estimate.
  rewrite bind_assert, (is_null_false _ Ha). cbn [negb].
  rewrite populate_default, Hfee. rewrite <- precompiled_default in Hcd.
  rewrite (getCalldata_precompiled _ _ _ Hcd), bind_ret.
  rewrite (tagged_truthy _ (precompiled_tagged _ _ Hcd)). cbn [negb].
  rewrite bind_ret. rewrite precompiled_default in Hcd.
  rewrite (populate_precompiled _ _ _ _ Hcd).
  destruct (find_inputs_found _ _ Hin) as [inputs Hfound].
  rewrite Hfound, !bind_ret, bind_emit. reflexivity.
Qed.

(** C2, the behaviour on an unset address: an instance whose [address] is
    [undefined] passes the guard [this.address !== null], and [call],
    [invoke] and [estimate] go on to the backend with a Call whose
    [contractAddress] is [undefined]. *)
Theorem undefined_address_reaches_backend
    (this : Contract) (method : string) (args cd : value)
    (run : Call -> value -> value -> outcome value)
    (fee : Call -> outcome value) :
  address this = VUndefined ->
  precompiled args = Some cd ->
  In method (map name (abi this)) ->
  execute (providerOrAccount this) = Some run ->
  estimateInvokeFee (providerOrAccount this) = Some fee ->
  let request := {| contractAddress := VUndefined; entrypoint := method;
                    calldata := cd |} in
  sent_calls (trace (call this method args VUndefined)) = [request]
  /\ invoke this method args VUndefined =
       ([EvExecute request VUndefined VUndefined],
        run request VUndefined VUndefined)
  /\ estimate this method args = ([EvEstimateInvokeFee request], fee request).
Proof.
  intros Ha Hcd Hin Hrun Hfee request. subst request.
  assert (Hnn : address this <> VNull) by (rewrite Ha; discriminate).
  split; [|split].
  - rewrite (call_precompiled_sent _ _ _ _ _ Hcd), Ha. reflexivity.
  - rewrite (invoke_precompiled _ _ _ _ _ Hcd). simpl destructure.
    rewrite bind_ret, bind_assert, Ha. cbn [is_null negb].
    unfold dispatch_invocation. rewrite Hrun, bind_emit. reflexivity.
  - rewrite <- Ha. exact (estimate_precompiled _ _ _ _ _ Hcd Hnn Hin Hfee).
Qed.

(** ** The nonce of a direct invocation *)

Lemma invoke_direct (this : Contract) (method : string) (args cd o : value) :
  precompiled args = Some cd ->
  address this <> VNull -> o <> VNull ->
  execute (providerOrAccount this) = None ->
  let invocation := {| contractAddress := address this; entrypoint := method;
                       calldata := cd |} in
  invoke this method args o =
  if truthy (get o "nonce")
  then ([EvWarn ("Invoking " ++ method
                 ++ " without an account. This will not work on a public node.");
         EvInvokeFunction invocation (get o "signature") (get o "nonce")],
        invokeFunction (providerOrAccount this) invocation
          (get o "signature") (get o "nonce"))
  else throw (Error nonce_required).
Proof.
  intros Hcd Ha Ho Hex invocation.
  rewrite (invoke_precompiled _ _ _ _ _ Hcd), destructure_cases.
  rewrite (is_null_false _ Ho), bind_ret, bind_assert, (is_null_false _ Ha).
  cbn [negb]. unfold dispatch_invocation. rewrite Hex.
  replace (get (default_to (VObj ∅) o)) with (get o) by (destruct o; reflexivity).
  destruct (truthy (get o "nonce")); [|reflexivity].
  cbn [negb]. unfold warn. rewrite !bind_emit. reflexivity.
Qed.

(** Without an account and without a nonce the invocation is refused. *)
Lemma invoke_direct_absent_nonce (this : Contract) (method : string)
    (args cd o : value) :
  precompiled args = Some cd ->
  address this <> VNull -> o <> VNull ->
  execute (providerOrAccount this) = None ->
  get o "nonce" = VUndefined ->
  invoke this method args o = throw (Error nonce_required).
Proof.
  intros Hcd Ha Ho Hex Hn. rewrite (invoke_direct _ _ _ _ _ Hcd Ha Ho Hex), Hn.
  reflexivity.
Qed.

(** C5, the behaviour on the nonce zero: without an account, an invocation
    whose overrides supply the nonce [0] is refused with the error of a
    missing nonce, and nothing is sent. *)
Theorem invoke_direct_zero_nonce
    (this : Contract) (method : string) (args cd o : value) :
  precompiled args = Some cd ->
  address this <> VNull -> o <> VNull ->
  execute (providerOrAccount this) = None ->
  get o "nonce" = VNum 0 ->
  invoke this method args o = throw (Error nonce_required).
Proof.
  intros Hcd Ha Ho Hex Hn. rewrite (invoke_direct _ _ _ _ _ Hcd Ha Ho Hex), Hn.
  reflexivity.
Qed.

(** ** Binding *)

(** What one step of the constructor's loop does to each store. *)
Lemma own_bind_entry (this : Contract) (e : AbiEntry) :
  own (bind_entry this e) =
  if is_function e && negb (member_truthy (this_member this (name e)))
  then <[name e := VFun (buildDefault this e)]> (own this)
  else own this.
Proof.
  unfold bind_entry, is_function. destruct (String.eqb (type e) "function");
    [|reflexivity].
  cbn [negb andb].
  repeat match goal with
         | |- context [if negb (member_truthy ?m) then _ else _] =>
             destruct (negb (member_truthy m))
         end; reflexivity.
Qed.

Lemma functions_bind_entry (this : Contract) (e : AbiEntry) :
  functions (bind_entry this e) =
  if is_function e
     && negb (member_truthy (collection_member (functions this) (name e)))
  then <[name e := buildDefault this e]> (functions this)
  else functions this.
Proof.
  unfold bind_entry, is_function. destruct (String.eqb (type e) "function");
    [|reflexivity].
  cbn [negb andb].
  destruct (negb (member_truthy (this_member this (name e))));
    cbn [functions define_own];
    destruct (negb (member_truthy (collection_member (functions this) (name e))));
    repeat match goal with
           | |- context [if negb (member_truthy ?m) then _ else _] =>
               destruct (negb (member_truthy m))
           end; reflexivity.
Qed.

(** A property of the instance with a truthy value survives a step. *)
Lemma bind_entry_keeps_truthy (this : Contract) (e : AbiEntry)
    (k : string) (v : value) :
  own this !! k = Some v -> truthy v = true ->
  own (bind_entry this e) !! k = Some v.
Proof.
  intros Hk Hv. rewrite own_bind_entry.
  destruct (is_function e); [|exact Hk]. cbn [andb].
  destruct (decide (name e = k)) as [->|Hne].
  - unfold this_member. rewrite Hk. cbn [member_truthy]. rewrite Hv. exact Hk.
  - destruct (negb _); [|exact Hk]. rewrite lookup_insert_ne; assumption.
Qed.


(** An entry of the [functions] collection survives a step: the first
    function entry of a name wins. *)
Lemma bind_entry_keeps_function (this : Contract) (e : AbiEntry)
    (k : string) (f : func) :
  functions this !! k = Some f -> functions (bind_entry this e) !! k = Some f.
Proof.
  intros Hk. rewrite functions_bind_entry.
  destruct (is_function e); [|exact Hk]. cbn [andb].
  destruct (decide (name e = k)) as [->|Hne].
  - unfold collection_member. rewrite Hk. exact Hk.
  - destruct (negb _); [|exact Hk]. rewrite lookup_insert_ne; assumption.
Qed.

Lemma fold_bind_entry_keeps_truthy (entries : list AbiEntry) (this : Contract)
    (k : string) (v : value) :
  own this !! k = Some v -> truthy v = true ->
  own (fold_left bind_entry entries this) !! k = Some v.
Proof.
  revert this. induction entries as [|e entries IH]; intros this Hk Hv;
    [exact Hk|].
  simpl. apply IH; [apply bind_entry_keeps_truthy|]; assumption.
Qed.

Lemma fold_bind_entry_keeps_function (entries : list AbiEntry) (this : Contract)
    (k : string) (f : func) :
  functions this !! k = Some f ->
  functions (fold_left bind_entry entries this) !! k = Some f.
Proof.
  revert this. induction entries as [|e entries IH]; intros this Hk;
    [exact Hk|].
  simpl. apply IH, bind_entry_keeps_function, Hk.
Qed.

Lemma fold_bind_entry_unbound (entries : list AbiEntry) (this : Contract)
    (k : string) :
  functions this !! k = None ->
  (forall e, In e entries -> is_function e = true -> name e <> k) ->
  functions (fold_left bind_entry entries this) !! k = None.
Proof.
  revert this. induction entries as [|e entries IH]; intros this Hk Hother;
    [exact Hk|].
  simpl. apply IH; [|intros e' He'; apply Hother; right; exact He'].
  rewrite functions_bind_entry.
  destruct (is_function e) eqn:Hf; [|exact Hk]. cbn [andb].
  destruct (negb _); [|exact Hk].
  rewrite lookup_insert_ne; [exact Hk|]. apply Hother; [left; reflexivity|exact Hf].
Qed.

(** The first function entry of a name is the one whose default operation
    the [functions] collection holds, whatever follows it in the ABI;
    names of [Object.prototype] members are never bound there. *)
Lemma functions_first_wins (before later : list AbiEntry) (e : AbiEntry)
    (this : Contract) :
  is_function e = true ->
  mem (name e) object_prototype = false ->
  functions this !! name e = None ->
  (forall e', In e' before -> is_function e' = true -> name e' <> name e) ->
  functions (fold_left bind_entry (before ++ e :: later) this) !! name e
  = Some (buildDefault this e).
Proof.
  intros Hf Hproto Hk Hfirst. rewrite fold_left_app. simpl.
  apply fold_bind_entry_keeps_function.
  pose proof (fold_bind_entry_unbound before this (name e) Hk Hfirst) as Hnone.
  rewrite functions_bind_entry, Hf. unfold collection_member.
  rewrite Hnone, Hproto. simpl. apply lookup_insert_eq.
Qed.

(** C6, the behaviour on a falsy property: the guard [!this[signature]]
    tests the value, not the presence, of the property, so a function entry
    named [address] bound on an instance whose [address] is falsy (the empty
    string, [null], [undefined]) replaces the address by the bound method,
    and every later step keeps the method. *)
Theorem binding_replaces_falsy_address
    (this : Contract) (e : AbiEntry) (later : list AbiEntry) (v : value) :
  own this !! "address" = Some v ->
  truthy v = false ->
  type e = "function" ->
  name e = "address" ->
  address (bind_entry this e) = VFun (buildDefault this e)
  /\ address (fold_left bind_entry (e :: later) this) = VFun (buildDefault this e)
  /\ address (fold_left bind_entry (e :: later) this) <> address this.
Proof.
  intros Hk Hv Ht Hn.
  assert (Hone : own (bind_entry this e) !! "address"
                 = Some (VFun (buildDefault this e))).
  { rewrite own_bind_entry. unfold is_function. rewrite Ht, Hn.
    unfold this_member. rewrite Hk. cbn [member_truthy String.eqb]. rewrite Hv.
    simpl. apply lookup_insert_eq. }
  assert (Hall : own (fold_left bind_entry (e :: later) this) !! "address"
                 = Some (VFun (buildDefault this e))).
  { simpl. apply fold_bind_entry_keeps_truthy; [exact Hone|reflexivity]. }
  unfold address. rewrite Hone, Hall, Hk. simpl.
  repeat split. intros <-. discriminate Hv.
Qed.

(** ** Deployment *)

Lemma bind_emit_ret {A B} (ev : event) (a : A) (k : A -> M B) :
  bind (bind (emit ev) (fun _ => ret a)) k = (ev :: trace (k a), result (k a)).
Proof. unfold bind, emit, ret, trace, result. simpl. destruct (k a). reflexivity. Qed.

Lemma deploy_steps (this : ContractFactory) (rest : list value) :
  deploy this rest =
  (params <- splitArgsAndOptions rest ;;
   constructorCalldata <- constructor_calldata this params ;;
   finish_deploy this
     (default_to (VObj {[ "parseRequest" := VBool true ]}) (options params))
     constructorCalldata).
Proof. reflexivity. Qed.

Lemma new_Contract_silent (abi : Abi) (address : value) (backend : Backend) :
  trace (new_Contract abi address backend) = [].
Proof.
  unfold new_Contract, lowered.
  destruct (truthy address); [destruct address|]; reflexivity.
Qed.

Lemma fold_bind_entry_backend (entries : list AbiEntry) (this : Contract) :
  providerOrAccount (fold_left bind_entry entries this) = providerOrAccount this.
Proof.
  revert this. induction entries as [|e entries IH]; intros this; [reflexivity|].
  simpl. rewrite IH. unfold bind_entry.
  destruct (negb (String.eqb (type e) "function")); [reflexivity|].
  repeat match goal with
         | |- context [if negb (member_truthy ?m) then _ else _] =>
             destruct (negb (member_truthy m))
         end; reflexivity.
Qed.

Lemma new_Contract_string (abi : Abi) (s : string) (backend : Backend) :
  s <> "" ->
  exists contractInstance,
    new_Contract abi (VStr s) backend = ret contractInstance
    /\ address contractInstance = VStr (toLowerCase s)
    /\ providerOrAccount contractInstance = backend.
Proof.
  intros Hs. unfold new_Contract, lowered. simpl.
  destruct (String.eqb_spec s ""); [contradiction|]. simpl.
  eexists. split; [reflexivity|]. split.
  - unfold address.
    rewrite (fold_bind_entry_keeps_truthy _ _ "address" (VStr (toLowerCase s))).
    + reflexivity.
    + apply lookup_singleton_eq.
    + simpl. destruct (String.eqb_spec (toLowerCase s) "") as [Hempty|];
        [|reflexivity].
      exfalso. exact (toLowerCase_nonempty s Hs Hempty).
  - rewrite fold_bind_entry_backend. reflexivity.
Qed.

(** The check of the address: an answer of the account without a usable
    [contract_address] makes [deploy] fail, and no instance is returned. *)
Lemma finish_deploy_no_address (this : ContractFactory)
    (options constructorCalldata : value)
    (send : DeployPayload -> outcome DeployResponse) (r : DeployResponse) :
  declareAndDeploy (account this) = Some send ->
  let payload := {| dp_contract := compiledContract this;
                    dp_casm := casm this;
                    dp_classHash := classHash this;
                    dp_compiledClassHash := compiledClassHash this;
                    dp_constructorCalldata := constructorCalldata;
                    dp_salt := get options "addressSalt" |} in
  send payload = Ok r ->
  truthy (contract_address r) = false ->
  finish_deploy this options constructorCalldata =
  ([EvDeclareAndDeploy payload], Throw (Error deployment_failed)).
Proof.
  intros Hsend payload Hr Hfalsy. unfold finish_deploy. rewrite Hsend.
  fold payload. rewrite bind_emit, Hr, bind_lift, bind_assert, Hfalsy.
  reflexivity.
Qed.

(** With a usable address a new instance is returned, bound to the lowered
    address and to the account, unless the ABI binds a method named
    [deployTransactionHash], which the assignment of the hash cannot
    replace. *)
Lemma finish_deploy_address (this : ContractFactory)
    (options constructorCalldata : value)
    (send : DeployPayload -> outcome DeployResponse) (h : value) (s : string) :
  declareAndDeploy (account this) = Some send ->
  let payload := {| dp_contract := compiledContract this;
                    dp_casm := casm this;
                    dp_classHash := classHash this;
                    dp_compiledClassHash := compiledClassHash this;
                    dp_constructorCalldata := constructorCalldata;
                    dp_salt := get options "addressSalt" |} in
  send payload = Ok {| contract_address := VStr s; transaction_hash := h |} ->
  s <> "" ->
  exists bound,
    new_Contract (compiled_abi (compiledContract this)) (VStr s) (account this)
    = ret bound
    /\ finish_deploy this options constructorCalldata =
       if bool_decide ("deployTransactionHash" ∈ readonly bound)
       then ([EvDeclareAndDeploy payload],
             Throw (TypeError
                      "Cannot assign to read only property deployTransactionHash"))
       else ([EvDeclareAndDeploy payload],
             Ok (set_own "deployTransactionHash" h bound)).
Proof.
  intros Hsend payload Hr Hs.
  destruct (new_Contract_string (compiled_abi (compiledContract this)) s
              (account this) Hs) as (bound & Hnew & _ & _).
  exists bound. split; [exact Hnew|].
  unfold finish_deploy. rewrite Hsend. fold payload.
  rewrite bind_emit, Hr, bind_lift, bind_assert. cbn [contract_address truthy].
  destruct (String.eqb_spec s ""); [contradiction|]. cbn [negb].
  cbn [transaction_hash]. rewrite Hnew, bind_ret. unfold assign.
  destruct (bool_decide _); reflexivity.
Qed.

Lemma finish_deploy_quiet (this : ContractFactory)
    (options constructorCalldata : value) :
  quiet is_request_helper (finish_deploy this options constructorCalldata).
Proof.
  unfold finish_deploy.
  destruct (declareAndDeploy (account this)) as [send|]; [|apply quiet_throw].
  apply quiet_bind; [apply quiet_emit; reflexivity|]. intros _.
  apply quiet_bind; [apply quiet_lift|]. intros r.
  apply quiet_bind; [apply quiet_assert|]. intros _.
  apply quiet_bind.
  - unfold quiet. rewrite new_Contract_silent. constructor.
  - intros c. unfold assign. destruct (bool_decide _); auto with quiet.
Qed.

Lemma deployed_calldata_finish (this : ContractFactory)
    (options constructorCalldata : value) :
  Forall (fun cd => cd = constructorCalldata)
    (deployed_calldata (trace (finish_deploy this options constructorCalldata))).
Proof.
  unfold finish_deploy.
  destruct (declareAndDeploy (account this)) as [send|]; [|constructor].
  rewrite trace_bind_emit. cbv beta.
  match goal with
  | |- Forall _ (deployed_calldata (_ :: trace ?m)) =>
      assert (Hq : trace m = [])
  end.
  { destruct (send _) as [r|e]; [|reflexivity]. rewrite bind_lift, bind_assert.
    destruct (truthy (contract_address r)); [|reflexivity].
    pose proof (new_Contract_silent (compiled_abi (compiledContract this))
                  (contract_address r) (account this)) as Hn.
    destruct (new_Contract _ _ _) as [t [c|e]]; simpl in Hn; subst t.
    - unfold bind, assign. destruct (bool_decide _); reflexivity.
    - reflexivity. }
  rewrite Hq. repeat constructor.
Qed.

(** With [parseRequest: true] in a trailing options record the constructor
    arguments before it are validated under DEPLOY and compiled. *)
Lemma deploy_explicit_parseRequest (this : ContractFactory)
    (init : list value) (props : gmap string value) (v cd : value) :
  props !! "parseRequest" = Some v -> truthy v = true ->
  precompiled (VArr ∅ init) = None ->
  validate (factory_abi this) DEPLOY "constructor" (VArr ∅ init) = Ok tt ->
  compileNamed (factory_abi this) "constructor" (VArr ∅ init) = Ok cd ->
  deploy this (init ++ [VObj props]) =
  (EvValidate DEPLOY "constructor" (VArr ∅ init)
   :: EvCompile (VArr ∅ init)
   :: trace (finish_deploy this (VObj props) cd),
   result (finish_deploy this (VObj props) cd)).
Proof.
  intros Hp Hv Hraw Hvalid Hcompile.
  rewrite deploy_steps, splitArgsAndOptions_split_with, split_with_record.
  assert (Hkey : existsb (has_key props) option_names = true).
  { apply existsb_exists. exists "parseRequest". split.
    - unfold option_names. simpl. auto.
    - unfold has_key. apply bool_decide_eq_true_2. rewrite Hp. eauto. }
  rewrite Hkey, bind_ret. unfold constructor_calldata. cbn [args options].
  rewrite (getCalldata_raw _ _ Hraw). cbn [nullish is_null is_undefined orb].
  cbn [default_to is_undefined get]. rewrite Hp. cbn [from_option].
  rewrite Hv. unfold callData_validate, callData_compileNamed.
  rewrite Hvalid, Hcompile. unfold bind, emit, lift, trace, result. simpl.
  destruct (finish_deploy this (VObj props) cd). reflexivity.
Qed.

(** ** One vocabulary *)

Lemma invoke_reads_write_options (this : Contract) (method : string)
    (args : value) (p p' : gmap string value) :
  (forall k, In k write_option_names -> p !! k = p' !! k) ->
  invoke this method args (VObj p) = invoke this method args (VObj p').
Proof.
  intros Hsame. unfold invoke. cbn [destructure]. rewrite !bind_ret.
  unfold get.
  rewrite (Hsame "parseRequest"), (Hsame "maxFee"), (Hsame "nonce"),
    (Hsame "signature") by (unfold write_option_names; simpl; auto 6).
  reflexivity.
Qed.

(** C9, amended: the splitter has one vocabulary, the seven names of
    [option_names], and invoke-style and call-style bound calls both split
    with it: a trailing record is the options object exactly when it has one
    of the seven keys, on either path.  The write path then reads only
    [maxFee], [nonce], [signature] and [parseRequest] from the record; what
    else it holds has no effect on [invoke]. *)
Theorem one_option_vocabulary
    (contract : Contract) (functionAbi : AbiEntry)
    (init : list value) (props : gmap string value) :
  apply contract (buildInvoke contract functionAbi) (init ++ [VObj props]) =
    (if existsb (has_key props) option_names
     then invoke contract (name functionAbi) (VArr ∅ init)
            (VObj (props ∪ {[ "parseRequest" := VBool true ]}))
     else invoke contract (name functionAbi) (VArr ∅ (init ++ [VObj props]))
            (VObj {[ "parseRequest" := VBool true ]}))
  /\ apply contract (buildCall contract functionAbi) (init ++ [VObj props]) =
    (if existsb (has_key props) option_names
     then call contract (name functionAbi) (VArr ∅ init)
            (VObj (props ∪ {[ "parseRequest" := VBool true;
                             "parseResponse" := VBool true ]}))
     else call contract (name functionAbi) (VArr ∅ (init ++ [VObj props]))
            (VObj {[ "parseRequest" := VBool true;
                     "parseResponse" := VBool true ]}))
  /\ (forall (method : string) (args : value) (p p' : gmap string value),
        (forall k, In k write_option_names -> p !! k = p' !! k) ->
        invoke contract method args (VObj p)
        = invoke contract method args (VObj p')).
Proof.
  split; [|split].
  - unfold buildInvoke, apply.
    rewrite splitArgsAndOptions_split_with, split_with_record, bind_ret.
    destruct (existsb _ _); cbn [args options spread]; [reflexivity|].
    rewrite (left_id ∅ (∪)). reflexivity.
  - unfold buildCall, apply.
    rewrite splitArgsAndOptions_split_with, split_with_record, bind_ret.
    destruct (existsb _ _); cbn [args options spread]; [reflexivity|].
    rewrite (left_id ∅ (∪)). reflexivity.
  - intros method args p p'. apply invoke_reads_write_options.
Qed.

End Properties.

(** C10 as stated fails on the populate-only and on the estimate-only
    operation, which hand their argument list to [populate] and [estimate]
    without splitting it: with a trailing [null] the list is compiled and a
    Call is returned, or validated, compiled and estimated. *)
Lemma populate_only_takes_trailing_null :
  @apply tagging_CallData (sample_contract (VStr "0x1") sample_provider)
    (buildPopulate (sample_contract (VStr "0x1") sample_provider)
       (function_entry "set_balance" None))
    [VNull]
  = ([EvCompile (VArr ∅ [VNull])],
     Ok (call_object {| contractAddress := VStr "0x1";
                        entrypoint := "set_balance";
                        calldata := VArr {[ "compiled" := VBool true ]} [VNull] |}))
  /\ @apply tagging_CallData (sample_contract (VStr "0x1") sample_account)
       (buildEstimate (sample_contract (VStr "0x1") sample_account)
          (function_entry "set_balance" None))
       [VNull]
     = ([EvValidate INVOKE "set_balance" (VArr ∅ [VNull]);
         EvCompile (VArr ∅ [VNull]);
         EvEstimateInvokeFee
           {| contractAddress := VStr "0x1"; entrypoint := "set_balance";
              calldata := VArr {[ "compiled" := VBool true ]} [VNull] |}],
        Ok (VObj {[ "overall_fee" := VNum 5 ]}))
  /\ ~ (forall (CD : CallData) (contract : Contract) (f : func) (init : list value),
          apply contract f (init ++ [VNull]) = throw in_null).
Proof.
  assert (H : @apply tagging_CallData (sample_contract (VStr "0x1") sample_provider)
    (buildPopulate (sample_contract (VStr "0x1") sample_provider)
       (function_entry "set_balance" None))
    [VNull]
  = ([EvCompile (VArr ∅ [VNull])],
     Ok (call_object {| contractAddress := VStr "0x1";
                        entrypoint := "set_balance";
                        calldata := VArr {[ "compiled" := VBool true ]} [VNull] |})))
    by (vm_compute; reflexivity).
  split; [exact H|]. split; [vm_compute; reflexivity|].
  intros Hall.
  specialize (Hall tagging_CallData (sample_contract (VStr "0x1") sample_provider)
                (FPopulate (function_entry "set_balance" None)) []).
  simpl app in Hall. unfold buildPopulate in H. rewrite H in Hall. discriminate Hall.
Qed.

(** ** The statements on the fixtures *)

Lemma precompiled_calldata_passthrough_witness :
  precompiled sample_calldata = Some sample_calldata
  /\ sent_calls (trace (@call tagging_CallData account_contract "get_balance"
                          sample_calldata VUndefined))
     = [{| contractAddress := VStr "0x1"; entrypoint := "get_balance";
           calldata := sample_calldata |}].
Proof.
  split; [vm_compute; reflexivity|].
  destruct (@precompiled_calldata_passthrough tagging_CallData account_contract
              "get_balance" sample_calldata sample_calldata VUndefined eq_refl)
    as ((_ & _ & Hsent) & _).
  apply Hsent; vm_compute; discriminate.
Defined.

Lemma undefined_address_reaches_backend_witness :
  address unattached_contract = VUndefined
  /\ @estimate tagging_CallData unattached_contract "set_balance" sample_calldata
     = ([EvEstimateInvokeFee {| contractAddress := VUndefined;
                                entrypoint := "set_balance";
                                calldata := sample_calldata |}],
        Ok (VObj {[ "overall_fee" := VNum 5 ]})).
Proof.
  split; [vm_compute; reflexivity|].
  refine (proj2 (proj2 (@undefined_address_reaches_backend tagging_CallData
           unattached_contract "set_balance" sample_calldata sample_calldata
           (fun _ _ _ => Ok sample_receipt)
           (fun _ => Ok (VObj {[ "overall_fee" := VNum 5 ]}))
           _ _ _ _ _))).
  - vm_compute; reflexivity.
  - vm_compute; reflexivity.
  - vm_compute. auto.
  - vm_compute; reflexivity.
  - vm_compute; reflexivity.
Defined.

Lemma invoke_direct_zero_nonce_witness :
  execute (providerOrAccount provider_contract) = None
  /\ get (VObj {[ "nonce" := VNum 0 ]}) "nonce" = VNum 0
  /\ @invoke tagging_CallData provider_contract "set_balance" sample_calldata
       (VObj {[ "nonce" := VNum 0 ]})
     = throw (Error nonce_required).
Proof.
  split; [vm_compute; reflexivity|]. split; [vm_compute; reflexivity|].
  apply (@invoke_direct_zero_nonce tagging_CallData provider_contract
           "set_balance" sample_calldata sample_calldata
           (VObj {[ "nonce" := VNum 0 ]})).
  - vm_compute; reflexivity.
  - vm_compute; discriminate.
  - vm_compute; discriminate.
  - vm_compute; reflexivity.
  - vm_compute; reflexivity.
Defined.

Lemma binding_replaces_falsy_address_witness :
  own blank_instance !! "address" = Some (VStr "")
  /\ address (fold_left bind_entry [function_entry "address" None] blank_instance)
     = VFun (FInvoke (function_entry "address" None)).
Proof.
  split; [vm_compute; reflexivity|].
  refine (proj1 (binding_replaces_falsy_address blank_instance
           (function_entry "address" None) [] (VStr "") _ _ _ _));
    vm_compute; reflexivity.
Defined.

(** C9 as stated fails on an invoke-style call with a trailing
    [{blockIdentifier: 'latest'}]: the record is taken as the options
    object, although [blockIdentifier] is no write option, and only [1] is
    validated and compiled. *)
Lemma invoke_style_takes_read_option :
  splitArgsAndOptions [VNum 1; VObj {[ "blockIdentifier" := VStr "latest" ]}]
  = ret {| args := [VNum 1];
           options := VObj {[ "blockIdentifier" := VStr "latest" ]} |}
  /\ split_with write_option_names
       [VNum 1; VObj {[ "blockIdentifier" := VStr "latest" ]}]
     = ret {| args := [VNum 1; VObj {[ "blockIdentifier" := VStr "latest" ]}];
              options := VObj ∅ |}
  /\ trace (@apply tagging_CallData account_contract
              (buildInvoke account_contract (function_entry "set_balance" None))
              [VNum 1; VObj {[ "blockIdentifier" := VStr "latest" ]}])
     = [EvValidate INVOKE "set_balance" (VArr ∅ [VNum 1]);
        EvCompile (VArr ∅ [VNum 1]);
        EvExecute {| contractAddress := VStr "0x1"; entrypoint := "set_balance";
                     calldata := VArr {[ "compiled" := VBool true ]} [VNum 1] |}
          VUndefined VUndefined]
  /\ ~ (forall rest, splitArgsAndOptions rest = split_with write_option_names rest).
Proof.
  split; [vm_compute; reflexivity|]. split; [vm_compute; reflexivity|]. split; [vm_compute; reflexivity|].
  intros Hall.
  specialize (Hall [VNum 1; VObj {[ "blockIdentifier" := VStr "latest" ]}]).
  vm_compute in Hall. discriminate Hall.
Qed.

(** * More of the binding layer *)

(** ** The splitter, in general *)

Lemma typeof_object (v : value) :
  typeof v = "object" -> v = VNull \/ (exists p, v = VObj p) \/ (exists p l, v = VArr p l).
Proof. destruct v; simpl; intros H; try discriminate H; eauto. Qed.

Lemma some_in_array (keys : list string) (props : gmap string value)
    (elems : list value) :
  exists found, some_in keys (VArr props elems) = ret found.
Proof.
  induction keys as [|k keys IH]; simpl; [eauto|].
  destruct (_ || _); [eauto|exact IH].
Qed.

Lemma snoc_last {A} (l : list A) (x : A) :
  last l = Some x -> l = (removelast l ++ [x])%list.
Proof.
  induction l as [|y init _] using rev_ind; [discriminate|].
  rewrite last_snoc. intros [= ->]. rewrite removelast_last. reflexivity.
Qed.

(** X1: the splitter fails only on a trailing [null]; otherwise it loses and
    invents nothing: either the list is returned whole with the empty record
    for options, or the list is the returned arguments followed by the
    returned options, which are then an object. *)
Theorem splitArgsAndOptions_partition (rest : list value) :
  (last rest = Some VNull /\ splitArgsAndOptions rest = throw in_null)
  \/ (last rest <> Some VNull
      /\ exists params, splitArgsAndOptions rest = ret params
         /\ ((args params = rest /\ options params = VObj ∅)
             \/ (rest = (args params ++ [options params])%list
                 /\ typeof (options params) = "object"))).
Proof.
  destruct (last rest) as [lastArg|] eqn:Hlast.
  - pose proof (snoc_last _ _ Hlast) as Hrest.
    unfold splitArgsAndOptions. rewrite Hlast. cbn [from_option].
    destruct (String.eqb_spec (typeof lastArg) "object") as [Hobj|Hobj].
    + destruct (typeof_object _ Hobj) as [->|[[p ->]|[p [l ->]]]].
      * left. split; reflexivity.
      * right. split; [discriminate|].
        rewrite some_in_record, bind_ret.
        destruct (existsb _ _); eexists; (split; [reflexivity|]); cbn [args options];
          [right; split; [exact Hrest|reflexivity] | left; split; reflexivity].
      * right. split; [discriminate|].
        destruct (some_in_array option_names p l) as [found ->].
        rewrite bind_ret.
        destruct found; eexists; (split; [reflexivity|]); cbn [args options];
          [right; split; [exact Hrest|reflexivity] | left; split; reflexivity].
    + right. split; [intros [= ->]; contradiction Hobj; reflexivity|].
      rewrite bind_ret. eexists. split; [reflexivity|]. left. split; reflexivity.
  - right. split; [discriminate|].
    apply last_None in Hlast. subst rest.
    eexists. split; [reflexivity|]. left. split; reflexivity.
Qed.

(** The decimal rendering of a number begins with a digit. *)
Lemma pretty_N_go_digit (x : N) (s : string) :
  (0 < x)%N \/ starts_with_digit s = true ->
  starts_with_digit (pretty_N_go x s) = true.
Proof.
  revert s. induction (N.lt_wf_0 x) as [x _ IH]. intros s Hs.
  assert (x = 0 \/ 0 < x)%N as [->|Hpos] by lia.
  - rewrite pretty_N_go_0. destruct Hs as [Hs|Hs]; [lia|exact Hs].
  - rewrite pretty_N_go_step by exact Hpos. apply IH.
    + apply N.div_lt; [exact Hpos|reflexivity].
    + right. unfold pretty_N_char. simpl.
      repeat case_match; reflexivity.
Qed.

Lemma pretty_nat_digit (i : nat) : starts_with_digit (pretty i) = true.
Proof.
  unfold pretty, pretty_nat, pretty, pretty_N.
  destruct (decide (N.of_nat i = 0%N)); [reflexivity|].
  apply pretty_N_go_digit. left. lia.
Qed.

Lemma index_not_option (k : string) (n : nat) :
  starts_with_digit k = false ->
  existsb (fun i => String.eqb k (pretty i)) (seq 0 n) = false.
Proof.
  intros Hk. apply not_true_is_false. intros Hex.
  apply existsb_exists in Hex as (i & _ & Heq).
  apply String.eqb_eq in Heq. subst k.
  rewrite pretty_nat_digit in Hk. discriminate Hk.
Qed.

Lemma some_in_plain_array (keys : list string) (props : gmap string value)
    (elems : list value) :
  Forall (fun k => props !! k = None /\ k <> "length"
                   /\ starts_with_digit k = false) keys ->
  some_in keys (VArr props elems) = ret false.
Proof.
  induction 1 as [|k keys (Hp & Hl & Hd) _ IH]; [reflexivity|].
  simpl. rewrite Hp, (index_not_option _ _ Hd).
  destruct (String.eqb_spec k "length"); [contradiction|].
  rewrite bool_decide_eq_false_2 by (intros [? ?]; discriminate).
  exact IH.
Qed.

(** X2: a trailing array stays a positional argument, whatever its length
    and its elements, unless one of its own properties bears an option
    name; so does a trailing value that is not an object at all.  An
    argument list ending in an array of values or in tagged Calldata is
    therefore never split. *)
Theorem splitArgsAndOptions_trailing_array
    (init : list value) (props : gmap string value) (elems : list value)
    (v : value) :
  Forall (fun k => props !! k = None) option_names ->
  typeof v <> "object" ->
  splitArgsAndOptions (init ++ [VArr props elems]) =
    ret {| args := init ++ [VArr props elems]; options := VObj ∅ |}
  /\ splitArgsAndOptions (init ++ [v]) =
    ret {| args := init ++ [v]; options := VObj ∅ |}.
Proof.
  intros Hprops Hv. split; [|exact (splitArgsAndOptions_primitive init v Hv)].
  unfold splitArgsAndOptions. rewrite last_snoc. cbn [from_option typeof].
  cbn [String.eqb Ascii.eqb Bool.eqb].
  rewrite some_in_plain_array, bind_ret; [reflexivity|].
  unfold option_names in *.
  repeat match goal with
         | H : Forall _ (_ :: _) |- _ =>
             apply Forall_cons in H; destruct H as [? H]
         end.
  repeat (apply Forall_cons; split;
          [split; [assumption|split; [discriminate|reflexivity]]|]).
  constructor.
Qed.

Section Coverage.
Context `{CD : CallData} `{RT : StringRuntime}.

(** ** The dispatcher on raw arguments *)

Lemma get_default (o : value) (k : string) :
  get (default_to (VObj ∅) o) k = get o k.
Proof. destruct o; reflexivity. Qed.

Lemma nullish_default (args : value) :
  is_null args = false -> nullish (default_to (VArr ∅ []) args) = false.
Proof. destruct args; try reflexivity. discriminate. Qed.

Lemma find_inputs_entry (this : Contract) (method : string) (entry : AbiEntry) :
  find (fun abi => String.eqb (name abi) method) (abi this) = Some entry ->
  find_inputs this method = ret (inputs entry).
Proof. intros H. unfold find_inputs. rewrite H. reflexivity. Qed.

Lemma find_inputs_missing (this : Contract) (method : string) :
  ~ In method (map name (abi this)) -> find_inputs this method = throw no_inputs.
Proof.
  intros Hout. unfold find_inputs.
  destruct (find _ (abi this)) as [entry|] eqn:Hfind; [|reflexivity].
  exfalso. apply Hout. apply find_some in Hfind as [Hin Hname].
  apply String.eqb_eq in Hname. subst method. apply in_map. exact Hin.
Qed.

(** The argument resolution of [call] and [invoke] on raw arguments. *)
Lemma resolve_raw (this : Contract) (kind : ValidateType) (method : string)
    (args parseRequest : value) (message : string) (entry : AbiEntry) :
  precompiled args = None -> is_null args = false ->
  truthy parseRequest = true ->
  find (fun abi => String.eqb (name abi) method) (abi this) = Some entry ->
  let args' := default_to (VArr ∅ []) args in
  getCalldata args'
    (if truthy parseRequest then
       inputs <- find_inputs this method ;;
       callData_validate (abi this) kind method args' ;;;
       callData_compile (abi this) args' inputs
     else warn message ;;; ret args') =
  match validate (abi this) kind method args' with
  | Ok _ => (EvValidate kind method args' :: [EvCompile args'],
             compile (abi this) args' (inputs entry))
  | Throw e => ([EvValidate kind method args'], Throw e)
  end.
Proof.
  intros Hraw Hnull Hparse Hfind args'. subst args'.
  rewrite <- precompiled_default in Hraw.
  rewrite (getCalldata_raw _ _ Hraw), (nullish_default _ Hnull), Hparse.
  rewrite (find_inputs_entry _ _ _ Hfind), bind_ret.
  unfold callData_validate, callData_compile.
  destruct (validate _ _ _ _) as [[]|e]; [|reflexivity].
  unfold bind, emit, lift. simpl. reflexivity.
Qed.

Lemma bind_logged {A B} (t : list event) (a : A) (k : A -> M B) :
  bind (t, Ok a) k = ((t ++ trace (k a))%list, result (k a)).
Proof. unfold bind, trace, result. destruct (k a). reflexivity. Qed.

Lemma read_property_cases (x : value) :
  read_property x "result" =
  if nullish x then throw (no_answer x) else ret (get x "result").
Proof. destruct x; reflexivity. Qed.

(** X3: [call] on raw arguments with the default options, for a method of
    the ABI and an address that is not [null]: the arguments are validated
    under CALL, compiled against the inputs of the first entry of that name,
    and sent with the compiled calldata; the [result] of the answer is
    parsed.  A failure of the backend is passed on as it is, and an answer
    that is [undefined] or [null] raises on reading its [result]; in both
    cases nothing is parsed. *)
Theorem call_raw_arguments
    (this : Contract) (method : string) (args cd : value) (entry : AbiEntry) :
  address this <> VNull ->
  precompiled args = None -> is_null args = false ->
  find (fun abi => String.eqb (name abi) method) (abi this) = Some entry ->
  let args' := default_to (VArr ∅ []) args in
  validate (abi this) CALL method args' = Ok tt ->
  compile (abi this) args' (inputs entry) = Ok cd ->
  let request := {| contractAddress := address this; entrypoint := method;
                    calldata := cd |} in
  call this method args VUndefined =
  match callContract (providerOrAccount this) request VUndefined with
  | Ok x =>
      if nullish x
      then ([EvValidate CALL method args'; EvCompile args';
             EvCallContract request VUndefined],
            Throw (no_answer x))
      else ([EvValidate CALL method args'; EvCompile args';
             EvCallContract request VUndefined;
             EvParse method (get x "result")],
            parse (abi this) method (get x "result"))
  | Throw e =>
      ([EvValidate CALL method args'; EvCompile args';
        EvCallContract request VUndefined],
       Throw e)
  end.
Proof.
  intros Ha Hraw Hnull Hfind args' Hvalid Hcompile request.
  unfold call. cbn [destructure]. rewrite bind_ret, bind_assert.
  rewrite (is_null_false _ Ha). cbn [negb].
  change (get (VObj ∅) "parseRequest") with VUndefined.
  change (get (VObj ∅) "parseResponse") with VUndefined.
  change (get (VObj ∅) "formatResponse") with VUndefined.
  change (get (VObj ∅) "blockIdentifier") with VUndefined.
  cbn [default_to is_undefined].
  rewrite (resolve_raw this CALL method args (VBool true) _ entry Hraw Hnull
             eq_refl Hfind).
  fold args'. rewrite Hvalid, Hcompile. fold request.
  cbn [truthy negb].
  rewrite bind_logged, bind_emit, bind_lift.
  destruct (callContract _ _ _) as [x|e]; [|reflexivity].
  rewrite read_property_cases.
  destruct (nullish x); [reflexivity|].
  rewrite bind_ret. unfold callData_parse. rewrite bind_emit. reflexivity.
Qed.

(** X4: when the helper rejects raw arguments, [call], [invoke] and
    [estimate] fail with the helper's error right after the validation:
    nothing is compiled and nothing is sent. *)
Theorem validation_failure_stops
    (this : Contract) (method : string) (args o : value) (entry : AbiEntry)
    (e : error) :
  address this <> VNull -> o <> VNull ->
  truthy (default_to (VBool true) (get o "parseRequest")) = true ->
  precompiled args = None -> is_null args = false ->
  find (fun abi => String.eqb (name abi) method) (abi this) = Some entry ->
  let args' := default_to (VArr ∅ []) args in
  (validate (abi this) CALL method args' = Throw e ->
   call this method args o = ([EvValidate CALL method args'], Throw e))
  /\ (validate (abi this) INVOKE method args' = Throw e ->
      invoke this method args o = ([EvValidate INVOKE method args'], Throw e)
      /\ estimate this method args = ([EvValidate INVOKE method args'], Throw e)).
Proof.
  intros Ha Ho Hparse Hraw Hnull Hfind args'. split; [|intros Hv; split].
  - intros Hv. unfold call.
    rewrite destructure_cases, (is_null_false _ Ho), bind_ret, bind_assert.
    rewrite (is_null_false _ Ha). cbn [negb]. rewrite !get_default.
    rewrite (resolve_raw this CALL method args _ _ entry Hraw Hnull Hparse Hfind).
    fold args'. rewrite Hv. reflexivity.
  - unfold invoke.
    rewrite destructure_cases, (is_null_false _ Ho), bind_ret, bind_assert.
    rewrite (is_null_false _ Ha). cbn [negb]. rewrite !get_default.
    rewrite (resolve_raw this INVOKE method args _ _ entry Hraw Hnull Hparse Hfind).
    fold args'. rewrite Hv. reflexivity.
  - unfold estimate. fold args'.
    rewrite bind_assert, (is_null_false _ Ha). cbn [negb].
    pose proof Hraw as Hraw'. rewrite <- precompiled_default in Hraw'.
    rewrite (getCalldata_raw _ _ Hraw'), (nullish_default _ Hnull), bind_ret.
    cbn [truthy negb]. unfold callData_validate. rewrite Hv. reflexivity.
Qed.

(** X5: a method that names no entry of the ABI.  [populate] fails on
    reading the inputs, whatever the arguments, tagged Calldata included, and
    so does [estimate] on tagged Calldata; [call] and [invoke] fail the same
    way on raw arguments, before anything is validated.  Nothing is logged
    in any of these cases. *)
Theorem unknown_method
    (this : Contract) (method : string) (args cd : value) :
  ~ In method (map name (abi this)) ->
  address this <> VNull ->
  populate this method args = throw no_inputs
  /\ (precompiled args = Some cd -> estimate this method args = throw no_inputs)
  /\ (precompiled args = None -> is_null args = false ->
      call this method args VUndefined = throw no_inputs
      /\ invoke this method args VUndefined = throw no_inputs).
Proof.
  intros Hout Ha.
  assert (Hpop : forall a, populate this method a = throw no_inputs).
  { intros a. unfold populate. rewrite (find_inputs_missing _ _ Hout).
    reflexivity. }
  split; [apply Hpop|]. split.
  - intros Hcd. unfold estimate.
    rewrite bind_assert, (is_null_false _ Ha). cbn [negb].
    rewrite <- precompiled_default in Hcd.
    rewrite (getCalldata_precompiled _ _ _ Hcd), bind_ret.
    rewrite (tagged_truthy _ (precompiled_tagged _ _ Hcd)). cbn [negb].
    rewrite bind_ret, Hpop. reflexivity.
  - intros Hraw Hnull. rewrite <- precompiled_default in Hraw. split.
    + unfold call. cbn [destructure]. rewrite bind_ret, bind_assert.
      rewrite (is_null_false _ Ha). cbn [negb].
      rewrite (getCalldata_raw _ _ Hraw), (nullish_default _ Hnull).
      change (get (VObj ∅) "parseRequest") with VUndefined.
      cbn [default_to is_undefined truthy].
      rewrite (find_inputs_missing _ _ Hout). reflexivity.
    + unfold invoke. cbn [destructure]. rewrite bind_ret, bind_assert.
      rewrite (is_null_false _ Ha). cbn [negb].
      rewrite (getCalldata_raw _ _ Hraw), (nullish_default _ Hnull).
      change (get (VObj ∅) "parseRequest") with VUndefined.
      cbn [default_to is_undefined truthy].
      rewrite (find_inputs_missing _ _ Hout). reflexivity.
Qed.

(** X6: on an instance whose address is [null], [call], [invoke] and
    [estimate] fail with the error of the missing address and an empty log,
    whatever the method and the arguments. *)
Theorem null_address_rejected
    (this : Contract) (method : string) (args o : value) :
  address this = VNull -> o <> VNull ->
  call this method args o = throw (Error not_connected)
  /\ invoke this method args o = throw (Error not_connected)
  /\ estimate this method args = throw (Error not_connected).
Proof.
  intros Ha Ho. split; [|split].
  - exact (call_null_address _ _ _ _ Ha Ho).
  - exact (invoke_null_address _ _ _ _ Ha Ho).
  - exact (estimate_null_address _ _ _ Ha).
Qed.

(** ** The answer of a read *)

(** X7: what [call] makes of the answer.  A failure of the backend is
    passed on as it is, and an answer that is [undefined] or [null] raises on
    reading its [result].  Otherwise, with [parseResponse] false the raw
    [result] is returned and neither parsed nor formatted, even when
    [formatResponse] is given; else a [formatResponse] has the result
    formatted and not parsed; else the result is parsed. *)
Theorem call_response_handling
    (this : Contract) (method : string) (args cd : value)
    (p : gmap string value) :
  precompiled args = Some cd ->
  address this <> VNull ->
  let request := {| contractAddress := address this; entrypoint := method;
                    calldata := cd |} in
  let blockIdentifier := from_option (p !! "blockIdentifier") in
  let formatResponse := from_option (p !! "formatResponse") in
  let sent := EvCallContract request blockIdentifier in
  call this method args (VObj p) =
  match callContract (providerOrAccount this) request blockIdentifier with
  | Throw e => ([sent], Throw e)
  | Ok x =>
      if nullish x then ([sent], Throw (no_answer x))
      else if negb (truthy (default_to (VBool true)
                              (from_option (p !! "parseResponse"))))
      then ([sent], Ok (get x "result"))
      else if truthy formatResponse
      then ([sent; EvFormat method (get x "result") formatResponse],
            format (abi this) method (get x "result") formatResponse)
      else ([sent; EvParse method (get x "result")],
            parse (abi this) method (get x "result"))
  end.
Proof.
  intros Hcd Ha request blockIdentifier formatResponse sent.
  rewrite (call_precompiled _ _ _ _ _ Hcd). cbn [destructure].
  rewrite bind_ret, bind_assert, (is_null_false _ Ha). cbn [negb get].
  fold request blockIdentifier formatResponse sent.
  rewrite bind_emit, bind_lift.
  destruct (callContract _ _ _) as [x|e]; [|reflexivity].
  rewrite read_property_cases.
  destruct (nullish x); [destruct (negb _); [|destruct (truthy _)]; reflexivity|].
  destruct (negb _); [reflexivity|].
  unfold callData_format, callData_parse.
  destruct (truthy formatResponse); rewrite bind_ret, bind_emit; reflexivity.
Qed.

(** X8: a bound call whose trailing options set [parseRequest] to a falsy
    value that is not [undefined] sends the raw positional arguments as they
    are: a warning is logged first, nothing is validated or compiled, and the
    one request to the backend carries the raw array as calldata. *)
Theorem bound_call_skips_parsing
    (contract : Contract) (functionAbi : AbiEntry) (init : list value)
    (p : gmap string value) (v : value) :
  p !! "parseRequest" = Some v ->
  truthy (default_to (VBool true) v) = false ->
  address contract <> VNull ->
  precompiled (VArr ∅ init) = None ->
  let run := apply contract (buildCall contract functionAbi) (init ++ [VObj p]) in
  quiet is_request_helper run
  /\ sent_calls (trace run) =
       [{| contractAddress := address contract; entrypoint := name functionAbi;
           calldata := VArr ∅ init |}]
  /\ exists t,
       trace run =
       EvWarn "Call skipped parsing but provided rawArgs, possible malfunction request"
       :: t.
Proof.
  intros Hp Hv Ha Hraw run. subst run. unfold buildCall, apply.
  rewrite splitArgsAndOptions_split_with, split_with_record.
  assert (Hkey : existsb (has_key p) option_names = true).
  { apply existsb_exists. exists "parseRequest". split.
    - unfold option_names. simpl. auto.
    - unfold has_key. apply bool_decide_eq_true_2. rewrite Hp. eauto. }
  rewrite Hkey, bind_ret. cbn [args options spread].
  unfold call. cbn [destructure]. rewrite bind_ret, bind_assert.
  rewrite (is_null_false _ Ha). cbn [negb get default_to is_undefined].
  rewrite (lookup_union_Some_l _ _ _ _ Hp). cbn [from_option].
  change (if is_undefined v then VBool true else v)
    with (default_to (VBool true) v).
  rewrite Hv, (getCalldata_raw _ _ Hraw). cbn [nullish is_null is_undefined orb].
  unfold warn. rewrite bind_emit_ret.
  split; [|split].
  - apply Forall_cons. split; [reflexivity|]. cbn [trace fst].
    apply quiet_bind; [apply quiet_emit; reflexivity|]. intros _.
    unfold callData_format, callData_parse, read_property. quiet_tac.
  - cbn [trace fst]. rewrite sent_calls_cons, trace_bind_emit, sent_calls_cons.
    match goal with
    | |- _ :: sent_calls (trace ?m) = _ =>
        assert (Hq : quiet is_backend m)
          by (unfold callData_format, callData_parse, read_property; quiet_tac)
    end.
    rewrite (sent_calls_quiet _ Hq). reflexivity.
  - cbn [trace fst]. eauto.
Qed.

(** ** The write path *)

(** X9: [invoke] on a backend with [execute]: the invocation is handed to
    [execute] with the [maxFee] and [nonce] of the overrides, no nonce is
    required, no warning is logged and the [signature] is not used.  Raw
    arguments are first validated under INVOKE and compiled. *)
Theorem invoke_with_account
    (this : Contract) (method : string) (args cd o : value)
    (run : Call -> value -> value -> outcome value) :
  address this <> VNull -> o <> VNull ->
  execute (providerOrAccount this) = Some run ->
  let invocation := {| contractAddress := address this; entrypoint := method;
                       calldata := cd |} in
  let args' := default_to (VArr ∅ []) args in
  (precompiled args = Some cd ->
   invoke this method args o =
   ([EvExecute invocation (get o "maxFee") (get o "nonce")],
    run invocation (get o "maxFee") (get o "nonce")))
  /\ (forall entry,
        precompiled args = None -> is_null args = false ->
        truthy (default_to (VBool true) (get o "parseRequest")) = true ->
        find (fun abi => String.eqb (name abi) method) (abi this) = Some entry ->
        validate (abi this) INVOKE method args' = Ok tt ->
        compile (abi this) args' (inputs entry) = Ok cd ->
        invoke this method args o =
        ([EvValidate INVOKE method args'; EvCompile args';
          EvExecute invocation (get o "maxFee") (get o "nonce")],
         run invocation (get o "maxFee") (get o "nonce"))).
Proof.
  intros Ha Ho Hrun invocation args'. split.
  - intros Hcd. rewrite (invoke_precompiled _ _ _ _ _ Hcd), destructure_cases.
    rewrite (is_null_false _ Ho), bind_ret, bind_assert, (is_null_false _ Ha).
    cbn [negb]. unfold dispatch_invocation. rewrite Hrun, bind_emit, !get_default.
    reflexivity.
  - intros entry Hraw Hnull Hparse Hfind Hvalid Hcompile. unfold invoke.
    rewrite destructure_cases, (is_null_false _ Ho), bind_ret, bind_assert.
    rewrite (is_null_false _ Ha). cbn [negb]. rewrite !get_default.
    rewrite (resolve_raw this INVOKE method args _ _ entry Hraw Hnull Hparse Hfind).
    fold args'. rewrite Hvalid, Hcompile, Hrun.
    unfold bind, emit, lift. simpl. reflexivity.
Qed.

(** X10: [invoke] on a backend without [execute], with a truthy nonce: a
    warning that names the method is logged, then [invokeFunction] receives
    the invocation with the [signature] and the [nonce] of the overrides;
    [maxFee] is not passed on. *)
Theorem invoke_direct_with_nonce
    (this : Contract) (method : string) (args cd o : value) :
  precompiled args = Some cd ->
  address this <> VNull -> o <> VNull ->
  execute (providerOrAccount this) = None ->
  truthy (get o "nonce") = true ->
  let invocation := {| contractAddress := address this; entrypoint := method;
                       calldata := cd |} in
  invoke this method args o =
  ([EvWarn ("Invoking " ++ method
            ++ " without an account. This will not work on a public node.");
    EvInvokeFunction invocation (get o "signature") (get o "nonce")],
   invokeFunction (providerOrAccount this) invocation
     (get o "signature") (get o "nonce")).
Proof.
  intros Hcd Ha Ho Hex Hn invocation.
  rewrite (invoke_direct _ _ _ _ _ Hcd Ha Ho Hex), Hn. reflexivity.
Qed.

(** ** Populate and estimate *)

Lemma populate_quiet P (this : Contract) (method : string) (args : value) :
  (forall a, P (EvCompile a) = false) ->
  quiet P (populate this method args).
Proof.
  intros HP. unfold populate, find_inputs, callData_compile.
  apply quiet_bind; [destruct (find _ _); auto with quiet|]. intros inputs.
  apply quiet_bind; [|intros; apply quiet_ret].
  apply getCalldata_quiet.
  apply quiet_bind; [apply quiet_emit, HP|]. intros _. apply quiet_lift.
Qed.

(** X11: [populate] builds its Call without the backend and without the
    validator: for every instance, method and argument value its log holds
    no request to the backend, no validation and no warning, and so does the
    log of the populate-only operation of any entry. *)
Theorem populate_only_compiles
    (this : Contract) (method : string) (args : value)
    (functionAbi : AbiEntry) (rest : list value) :
  (quiet is_backend (populate this method args)
   /\ quiet is_validation (populate this method args)
   /\ quiet is_warning (populate this method args))
  /\ (quiet is_backend (apply this (buildPopulate this functionAbi) rest)
      /\ quiet is_validation (apply this (buildPopulate this functionAbi) rest)
      /\ quiet is_warning (apply this (buildPopulate this functionAbi) rest)).
Proof.
  split; [repeat split; apply populate_quiet; reflexivity|].
  unfold buildPopulate, apply.
  repeat split; (apply quiet_bind; [apply populate_quiet; reflexivity|]);
    intros c; apply quiet_ret.
Qed.

(** X17: [populate] does not look at the address: on raw arguments that
    compile it logs the one compilation and returns the Call with the
    compiled calldata and whatever [this.address] holds, [null] included. *)
Theorem populate_raw_arguments
    (this : Contract) (method : string) (args cd : value) (entry : AbiEntry) :
  precompiled args = None -> is_null args = false ->
  find (fun abi => String.eqb (name abi) method) (abi this) = Some entry ->
  compile (abi this) (default_to (VArr ∅ []) args) (inputs entry) = Ok cd ->
  populate this method args =
  ([EvCompile (default_to (VArr ∅ []) args)],
   Ok {| contractAddress := address this; entrypoint := method;
         calldata := cd |}).
Proof.
  intros Hraw Hnull Hfind Hcompile. unfold populate.
  rewrite (find_inputs_entry _ _ _ Hfind), bind_ret.
  rewrite <- precompiled_default in Hraw.
  rewrite (getCalldata_raw _ _ Hraw), (nullish_default _ Hnull).
  unfold callData_compile. rewrite Hcompile.
  unfold bind, emit, lift. simpl. reflexivity.
Qed.

(** X12: [estimate] on a backend with [estimateInvokeFee], address not
    [null]: raw arguments are validated under INVOKE first (tagged Calldata
    is not), then [populate] runs, and the Call it built is the one the
    backend is asked to estimate; the answer of the backend is the result. *)
Theorem estimate_with_account
    (this : Contract) (method : string) (args : value)
    (t : list event) (c : Call) (fee : Call -> outcome value) :
  estimateInvokeFee (providerOrAccount this) = Some fee ->
  address this <> VNull ->
  (precompiled args = None ->
   validate (abi this) INVOKE method (default_to (VArr ∅ []) args) = Ok tt) ->
  populate this method args = (t, Ok c) ->
  estimate this method args =
  ((match precompiled args with
    | Some _ => []
    | None => [EvValidate INVOKE method (default_to (VArr ∅ []) args)]
    end ++ t ++ [EvEstimateInvokeFee c])%list,
   fee c).
Proof.
  intros Hfee Ha Hvalid Hpop. unfold estimate.
  rewrite Hfee, bind_assert, (is_null_false _ Ha). cbn [negb].
  rewrite populate_default, Hpop.
  destruct (precompiled args) as [cd|] eqn:Hpre.
  - rewrite <- precompiled_default in Hpre.
    rewrite (getCalldata_precompiled _ _ _ Hpre), bind_ret.
    rewrite (tagged_truthy _ (precompiled_tagged _ _ Hpre)). cbn [negb].
    rewrite bind_ret. unfold bind, emit, lift. simpl. reflexivity.
  - specialize (Hvalid eq_refl).
    pose proof Hpre as Hpre'. rewrite <- precompiled_default in Hpre'.
    rewrite (getCalldata_raw _ _ Hpre').
    destruct (nullish (default_to (VArr ∅ []) args)) eqn:Hn.
    + exfalso. destruct args; try discriminate Hn.
      apply (populate_null this method c). rewrite Hpop. reflexivity.
    + rewrite bind_ret. cbn [truthy negb]. unfold callData_validate.
      rewrite Hvalid. unfold bind, emit, lift. simpl. reflexivity.
Qed.

Lemma trace_emit_first {A B} (ev : event) (k1 : unit -> M A) (k2 : A -> M B) :
  exists t, trace (bind (bind (emit ev) k1) k2) = ev :: t.
Proof.
  rewrite bind_emit. unfold bind, trace, result.
  destruct (k1 tt) as [t1 [a|e]]; simpl; [destruct (k2 a)|]; simpl; eauto.
Qed.

(** X13: the populate-only and the estimate-only operation take every
    argument as positional: a trailing record with option keys, which the
    default operation would split off, is handed to the compiler (or the
    validator) with the rest. *)
Theorem populate_only_keeps_options_record
    (contract : Contract) (functionAbi : AbiEntry) (init : list value)
    (p : gmap string value) (cd : value) (entry : AbiEntry) :
  precompiled (VArr ∅ (init ++ [VObj p])) = None ->
  find (fun abi => String.eqb (name abi) (name functionAbi)) (abi contract)
  = Some entry ->
  compile (abi contract) (VArr ∅ (init ++ [VObj p])) (inputs entry) = Ok cd ->
  address contract <> VNull ->
  apply contract (buildPopulate contract functionAbi) (init ++ [VObj p]) =
    ([EvCompile (VArr ∅ (init ++ [VObj p]))],
     Ok (call_object {| contractAddress := address contract;
                        entrypoint := name functionAbi; calldata := cd |}))
  /\ exists t,
       trace (apply contract (buildEstimate contract functionAbi)
                (init ++ [VObj p]))
       = EvValidate INVOKE (name functionAbi) (VArr ∅ (init ++ [VObj p])) :: t.
Proof.
  intros Hraw Hfind Hcompile Ha. split.
  - unfold buildPopulate, apply, populate. cbn [default_to is_undefined].
    rewrite (find_inputs_entry _ _ _ Hfind), bind_ret.
    rewrite (getCalldata_raw _ _ Hraw). cbn [nullish is_null is_undefined orb].
    unfold callData_compile. rewrite Hcompile.
    unfold bind, emit, lift. simpl. reflexivity.
  - unfold buildEstimate, apply, estimate. cbn [default_to is_undefined].
    rewrite bind_assert, (is_null_false _ Ha). cbn [negb].
    rewrite (getCalldata_raw _ _ Hraw). cbn [nullish is_null is_undefined orb].
    rewrite bind_ret. cbn [truthy negb]. unfold callData_validate.
    apply trace_emit_first.
Qed.

(** ** Rebinding *)

(** X14: [attach] stores the address as it is given, without the lowering
    the constructor applies, and leaves the ABI, the backend and the bound
    methods alone; the next [call] goes to the new address, and after
    [attach(null)] the instance refuses to call. *)
Theorem attach_rebinds
    (this : Contract) (a : value) (method : string) (args cd : value) :
  "address" ∉ readonly this ->
  exists this',
    attach this a = ret this'
    /\ address this' = a
    /\ abi this' = abi this
    /\ providerOrAccount this' = providerOrAccount this
    /\ functions this' = functions this
    /\ (precompiled args = Some cd -> a <> VNull ->
        sent_calls (trace (call this' method args VUndefined)) =
        [{| contractAddress := a; entrypoint := method; calldata := cd |}])
    /\ (a = VNull ->
        call this' method args VUndefined = throw (Error not_connected)).
Proof.
  intros Hw. exists (set_own "address" a this).
  assert (Haddr : address (set_own "address" a this) = a).
  { unfold address, set_own. cbn [own]. rewrite lookup_insert_eq. reflexivity. }
  split; [unfold attach, assign; rewrite bool_decide_eq_false_2 by exact Hw;
          reflexivity|].
  split; [exact Haddr|]. repeat (split; [reflexivity|]). split.
  - intros Hcd Hnn. rewrite (call_precompiled_sent _ _ _ _ _ Hcd), Haddr.
    rewrite (is_null_false _ Hnn). reflexivity.
  - intros ->. apply call_null_address; [exact Haddr|discriminate].
Qed.

(** X15: [connect] swaps the backend and nothing else, and the next
    operation talks to the new backend only: an instance created on a plain
    provider estimates fees once it is connected to an account. *)
Theorem connect_rebinds
    (this : Contract) (backend : Backend) (method : string) (args cd : value)
    (fee : Call -> outcome value) :
  estimateInvokeFee backend = Some fee ->
  precompiled args = Some cd ->
  address this <> VNull ->
  In method (map name (abi this)) ->
  let request := {| contractAddress := address this; entrypoint := method;
                    calldata := cd |} in
  estimate (connect this backend) method args
  = ([EvEstimateInvokeFee request], fee request)
  /\ address (connect this backend) = address this
  /\ abi (connect this backend) = abi this
  /\ functions (connect this backend) = functions this
  /\ providerOrAccount (connect this backend) = backend.
Proof.
  intros Hfee Hcd Ha Hin request. split; [|repeat split].
  exact (estimate_precompiled (connect this backend) method args cd fee
           Hcd Ha Hin Hfee).
Qed.

(** X16: [deployed] waits once.  With a pending deployment hash it asks
    the backend to wait for exactly that hash and clears it, so a second
    [deployed] asks nothing; if the wait fails the failure is passed on; with
    no pending hash nothing is asked at all. *)
Theorem deployed_waits_once (this : Contract) :
  "deployTransactionHash" ∉ readonly this ->
  let h := deployTransactionHash this in
  (truthy h = false -> deployed this = ret this)
  /\ (truthy h = true ->
      forall e, waitForTransaction (providerOrAccount this) h = Throw e ->
                deployed this = ([EvWaitForTransaction h], Throw e))
  /\ (truthy h = true ->
      waitForTransaction (providerOrAccount this) h = Ok tt ->
      exists this',
        deployed this = ([EvWaitForTransaction h], Ok this')
        /\ deployTransactionHash this' = VUndefined
        /\ address this' = address this
        /\ deployed this' = ret this').
Proof.
  intros Hw h. split; [|split].
  - intros Hh. unfold deployed. fold h. rewrite Hh. reflexivity.
  - intros Hh e He. unfold deployed. fold h. rewrite Hh, bind_emit, He.
    reflexivity.
  - intros Hh Hok. exists (set_own "deployTransactionHash" VUndefined this).
    assert (Hcleared : deployTransactionHash
                         (set_own "deployTransactionHash" VUndefined this)
                       = VUndefined).
    { unfold deployTransactionHash, set_own. cbn [own].
      rewrite lookup_insert_eq. reflexivity. }
    split; [|split; [exact Hcleared|split]].
    + unfold deployed. fold h. rewrite Hh, bind_emit, Hok.
      unfold assign. rewrite bool_decide_eq_false_2 by exact Hw. reflexivity.
    + unfold address, set_own. cbn [own].
      rewrite lookup_insert_ne by discriminate. reflexivity.
    + unfold deployed. rewrite Hcleared. reflexivity.
Qed.

(** ** The binder *)

Ltac bind_entry_cases :=
  unfold bind_entry, is_function;
  match goal with
  | |- context [String.eqb (type ?e) "function"] =>
      destruct (String.eqb (type e) "function"); [|reflexivity]
  end;
  cbn [negb andb];
  cbv zeta;
  repeat (match goal with
          | |- context [if negb (member_truthy ?m) then _ else _] =>
              lazymatch m with
              | context [member_truthy _] => fail
              | _ => destruct (negb (member_truthy m))
              end
          end;
          cbn [functions callStatic populateTransaction estimateFee own abi
               readonly providerOrAccount define_own with_functions with_callStatic
               with_populateTransaction with_estimateFee]);
  try reflexivity.

Lemma callStatic_bind_entry (this : Contract) (e : AbiEntry) :
  callStatic (bind_entry this e) =
  if is_function e
     && negb (member_truthy (collection_member (callStatic this) (name e)))
  then <[name e := FCall e]> (callStatic this)
  else callStatic this.
Proof. bind_entry_cases. Qed.

Lemma populateTransaction_bind_entry (this : Contract) (e : AbiEntry) :
  populateTransaction (bind_entry this e) =
  if is_function e
     && negb (member_truthy
                (collection_member (populateTransaction this) (name e)))
  then <[name e := FPopulate e]> (populateTransaction this)
  else populateTransaction this.
Proof. bind_entry_cases. Qed.

Lemma estimateFee_bind_entry (this : Contract) (e : AbiEntry) :
  estimateFee (bind_entry this e) =
  if is_function e
     && negb (member_truthy (collection_member (estimateFee this) (name e)))
  then <[name e := FEstimate e]> (estimateFee this)
  else estimateFee this.
Proof. bind_entry_cases. Qed.

Lemma abi_bind_entry (this : Contract) (e : AbiEntry) :
  abi (bind_entry this e) = abi this.
Proof. bind_entry_cases. Qed.

Lemma abi_fold_bind_entry (entries : list AbiEntry) (this : Contract) :
  abi (fold_left bind_entry entries this) = abi this.
Proof.
  revert this. induction entries as [|e entries IH]; intros this; [reflexivity|].
  simpl. rewrite IH. apply abi_bind_entry.
Qed.

Lemma collection_member_none {collection : gmap string func} {k : string} :
  collection !! k = None ->
  negb (member_truthy (collection_member collection k))
  = negb (mem k object_prototype).
Proof.
  intros H. unfold collection_member. rewrite H.
  destruct (mem k object_prototype); reflexivity.
Qed.

Lemma collection_member_some {collection : gmap string func} {k : string}
    {f : func} :
  collection !! k = Some f ->
  negb (member_truthy (collection_member collection k)) = false.
Proof. intros H. unfold collection_member. rewrite H. reflexivity. Qed.

(** One step of the loop keeps the four collections bundled. *)
Lemma bind_entry_bundled (entries : Abi) (this : Contract) (e : AbiEntry)
    (k : string) :
  In e entries -> bundled entries this k -> bundled entries (bind_entry this e) k.
Proof.
  intros He Hb. unfold bundled.
  rewrite functions_bind_entry, callStatic_bind_entry,
    populateTransaction_bind_entry, estimateFee_bind_entry.
  destruct (is_function e) eqn:Hf; [|exact Hb]. cbn [andb].
  destruct (decide (name e = k)) as [Hk|Hk].
  - subst k. destruct Hb as [(H1 & H2 & H3 & H4)|(e0 & Hin & Hf0 & Hn & H1 & H2 & H3 & H4)].
    + rewrite (collection_member_none H1), (collection_member_none H2),
        (collection_member_none H3), (collection_member_none H4).
      destruct (mem (name e) object_prototype); cbn [negb].
      * left. repeat split; assumption.
      * right. exists e. rewrite !lookup_insert_eq. repeat split; assumption.
    + rewrite (collection_member_some H1), (collection_member_some H2),
        (collection_member_some H3), (collection_member_some H4).
      right. exists e0. repeat split; assumption.
  - assert (Hkeep : forall (m : gmap string func) (f : func) (b : bool),
               (if b then <[name e := f]> m else m) !! k = m !! k).
    { intros m f [|]; [apply lookup_insert_ne; exact Hk|reflexivity]. }
    rewrite !Hkeep. exact Hb.
Qed.

Lemma fold_bind_entry_bundled (entries done : list AbiEntry) (this : Contract)
    (k : string) :
  (forall e, In e done -> In e entries) ->
  bundled entries this k -> bundled entries (fold_left bind_entry done this) k.
Proof.
  revert this. induction done as [|e done IH]; intros this Hsub Hb; [exact Hb|].
  simpl. apply IH; [intros e' He'; apply Hsub; right; exact He'|].
  apply bind_entry_bundled; [apply Hsub; left; reflexivity|exact Hb].
Qed.

Lemma new_Contract_fold (abi : Abi) (a : value) (backend : Backend)
    (t : list event) (c : Contract) :
  new_Contract abi a backend = (t, Ok c) ->
  exists a', c = fold_left bind_entry abi (unbound abi a' backend).
Proof.
  unfold new_Contract, lowered.
  destruct (truthy a).
  - destruct a; try discriminate. rewrite bind_ret. intros [= _ <-]. eauto.
  - rewrite bind_ret. intros [= _ <-]. eauto.
Qed.

Lemma new_Contract_bundled (abi : Abi) (a : value) (backend : Backend)
    (t : list event) (c : Contract) (k : string) :
  new_Contract abi a backend = (t, Ok c) -> bundled abi c k.
Proof.
  intros Hnew. destruct (new_Contract_fold _ _ _ _ _ Hnew) as [a' ->].
  apply fold_bind_entry_bundled; [auto|].
  left. unfold unbound. cbn. rewrite !lookup_empty. repeat split.
Qed.

(** X18: after construction the four collections expose the same names,
    and the four operations found under one name are built from one and the
    same function entry of the ABI: the default operation in [functions],
    the pure read in [callStatic], the populate-only operation in
    [populateTransaction] and the estimate-only operation in [estimateFee]. *)
Theorem collections_bundle_one_entry
    (abi : Abi) (a : value) (backend : Backend)
    (t : list event) (c : Contract) (k : string) :
  new_Contract abi a backend = (t, Ok c) ->
  (functions c !! k = None /\ callStatic c !! k = None
   /\ populateTransaction c !! k = None /\ estimateFee c !! k = None)
  \/ exists e, In e abi /\ type e = "function" /\ name e = k
       /\ functions c !! k = Some (buildDefault c e)
       /\ callStatic c !! k = Some (buildCall c e)
       /\ populateTransaction c !! k = Some (buildPopulate c e)
       /\ estimateFee c !! k = Some (buildEstimate c e).
Proof.
  intros Hnew.
  destruct (new_Contract_bundled _ _ _ _ _ k Hnew)
    as [Hnone|(e & Hin & Hf & Hn & H1 & H2 & H3 & H4)]; [left; exact Hnone|].
  right. exists e. unfold is_function in Hf. apply String.eqb_eq in Hf.
  repeat split; assumption.
Qed.

Lemma estimate_quiet_read_write (this : Contract) (method : string) (args : value) :
  quiet is_read (estimate this method args)
  /\ quiet is_write (estimate this method args).
Proof.
  split; unfold estimate, callData_validate;
    (apply quiet_bind; [apply quiet_assert|]; intros _;
     apply quiet_bind; [apply getCalldata_quiet, quiet_ret|]; intros probe;
     apply quiet_bind; [destruct (negb _); quiet_tac|]; intros _;
     apply quiet_bind; [apply populate_quiet; reflexivity|]; intros c;
     destruct (estimateInvokeFee _); quiet_tac).
Qed.

(** X19: what the operations of a constructed instance never do, whatever
    the mutability of their entry, the state of the instance at the time of
    the call and the arguments: an operation found in [callStatic] never
    reaches the write path of the backend, one found in [populateTransaction]
    never reaches the backend at all, one found in [estimateFee] never
    reaches the read path nor the write path. *)
Theorem collections_never_do
    (abi : Abi) (a : value) (backend : Backend)
    (t : list event) (c : Contract) (k : string) (f : func)
    (contract : Contract) (rest : list value) :
  new_Contract abi a backend = (t, Ok c) ->
  (callStatic c !! k = Some f -> quiet is_write (apply contract f rest))
  /\ (populateTransaction c !! k = Some f ->
      quiet is_backend (apply contract f rest))
  /\ (estimateFee c !! k = Some f ->
      quiet is_read (apply contract f rest)
      /\ quiet is_write (apply contract f rest)).
Proof.
  intros Hnew.
  destruct (new_Contract_bundled _ _ _ _ _ k Hnew)
    as [(_ & H2 & H3 & H4)|(e & _ & _ & _ & _ & H2 & H3 & H4)];
    rewrite H2, H3, H4.
  - repeat split; discriminate.
  - split; [|split].
    + intros [= <-]. unfold apply.
      apply quiet_bind; [auto with quiet|]. intros params.
      apply call_quiet_write.
    + intros [= <-]. unfold apply.
      apply quiet_bind; [apply populate_quiet; reflexivity|]. intros call.
      apply quiet_ret.
    + intros [= <-]. unfold apply. apply estimate_quiet_read_write.
Qed.

Lemma fold_bind_entry_binds (entries : list AbiEntry) (this : Contract)
    (e : AbiEntry) :
  In e entries -> is_function e = true ->
  mem (name e) object_prototype = false ->
  is_Some (functions (fold_left bind_entry entries this) !! name e).
Proof.
  revert this. induction entries as [|e0 entries IH]; intros this Hin Hf Hp;
    [contradiction|].
  simpl. destruct Hin as [->|Hin]; [|apply IH; assumption].
  assert (Hnow : is_Some (functions (bind_entry this e) !! name e)).
  { rewrite functions_bind_entry, Hf. cbn [andb]. unfold collection_member.
    destruct (functions this !! name e) as [f|] eqn:Hk.
    - cbn. rewrite Hk. eauto.
    - rewrite Hp. cbn. rewrite lookup_insert_eq. eauto. }
  destruct Hnow as [f Hnow].
  rewrite (fold_bind_entry_keeps_function _ _ _ _ Hnow). eauto.
Qed.

Lemma fold_bind_entry_skips_prototype (entries : list AbiEntry) (this : Contract)
    (k : string) :
  mem k object_prototype = true -> functions this !! k = None ->
  functions (fold_left bind_entry entries this) !! k = None.
Proof.
  revert this. induction entries as [|e entries IH]; intros this Hp Hk;
    [exact Hk|].
  simpl. apply IH; [exact Hp|]. rewrite functions_bind_entry.
  destruct (is_function e); [|exact Hk]. cbn [andb].
  destruct (decide (name e = k)) as [->|Hne].
  - rewrite (collection_member_none Hk), Hp. exact Hk.
  - destruct (negb _); [|exact Hk]. rewrite lookup_insert_ne; assumption.
Qed.

(** X20: which entries the binder exposes.  Every entry of type
    ['function'] whose name is not a member of [Object.prototype] is found
    in [functions] after construction, whatever else the ABI holds; a name
    that is a member of [Object.prototype] ([toString], [valueOf],
    [constructor], ...) is bound in none of the four collections, even if a
    function entry bears it. *)
Theorem binder_exposes
    (abi : Abi) (a : value) (backend : Backend)
    (t : list event) (c : Contract) :
  new_Contract abi a backend = (t, Ok c) ->
  (forall e, In e abi -> type e = "function" ->
             mem (name e) object_prototype = false ->
             is_Some (functions c !! name e))
  /\ (forall k, mem k object_prototype = true ->
                functions c !! k = None /\ callStatic c !! k = None
                /\ populateTransaction c !! k = None
                /\ estimateFee c !! k = None).
Proof.
  intros Hnew.
  assert (Hb : forall k, bundled abi c k)
    by (intros k; exact (new_Contract_bundled _ _ _ _ _ k Hnew)).
  destruct (new_Contract_fold _ _ _ _ _ Hnew) as [a' ->]. split.
  - intros e Hin Ht Hp. apply fold_bind_entry_binds; [exact Hin| |exact Hp].
    unfold is_function. rewrite Ht. reflexivity.
  - intros k Hp.
    assert (Hnone : functions (fold_left bind_entry abi (unbound abi a' backend))
                    !! k = None)
      by (apply fold_bind_entry_skips_prototype; [exact Hp|apply lookup_empty]).
    destruct (Hb k) as [Hall|(e & _ & _ & _ & Hsome & _)]; [exact Hall|].
    rewrite Hnone in Hsome. discriminate Hsome.
Qed.



Lemma bind_entry_agrees (this : Contract) (e : AbiEntry) (k : string) :
  k <> "address" ->
  mem k host_fields || mem k contract_prototype || mem k object_prototype = false ->
  agrees this k -> agrees (bind_entry this e) k.
Proof.
  intros Hka Hfree Hag. unfold agrees in *.
  rewrite own_bind_entry, functions_bind_entry.
  destruct (is_function e); [|exact Hag]. cbn [andb].
  destruct (decide (name e = k)) as [->|Hne].
  - apply orb_false_elim in Hfree as [Hfree Hobj].
    apply orb_false_elim in Hfree as [Hhost Hproto].
    unfold this_member, collection_member.
    destruct (functions this !! k) as [f|] eqn:Hf; rewrite Hag;
      cbn [fmap option_fmap option_map member_truthy truthy negb].
    + rewrite Hag, Hf. reflexivity.
    + rewrite Hhost, Hproto, Hobj. cbn [orb member_truthy negb].
      rewrite !lookup_insert_eq. reflexivity.
  - assert (Ho : forall (b : bool) v,
               (if b then <[name e := v]> (own this) else own this) !! k
               = own this !! k)
      by (intros [|] v; [apply lookup_insert_ne; exact Hne|reflexivity]).
    assert (Hfn : forall (b : bool) f,
               (if b then <[name e := f]> (functions this) else functions this) !! k
               = functions this !! k)
      by (intros [|] f; [apply lookup_insert_ne; exact Hne|reflexivity]).
    rewrite Ho, Hfn. exact Hag.
Qed.

Lemma fold_bind_entry_agrees (entries : list AbiEntry) (this : Contract)
    (k : string) :
  k <> "address" ->
  mem k host_fields || mem k contract_prototype || mem k object_prototype = false ->
  agrees this k -> agrees (fold_left bind_entry entries this) k.
Proof.
  revert this. induction entries as [|e entries IH]; intros this Hka Hfree Hag;
    [exact Hag|].
  simpl. apply IH; [exact Hka|exact Hfree|].
  apply bind_entry_agrees; assumption.
Qed.

(** X22: under a name that is neither [address] nor taken by a field, a
    method of the class or a member of [Object.prototype], the instance
    itself and its [functions] collection expose the same operation after
    construction: [contract.f] is [contract.functions.f]. *)
Theorem instance_agrees_with_functions
    (abi : Abi) (a : value) (backend : Backend)
    (t : list event) (c : Contract) (k : string) :
  new_Contract abi a backend = (t, Ok c) ->
  k <> "address" ->
  mem k host_fields || mem k contract_prototype || mem k object_prototype = false ->
  own c !! k = VFun <$> functions c !! k.
Proof.
  intros Hnew Hka Hfree. destruct (new_Contract_fold _ _ _ _ _ Hnew) as [a' ->].
  apply fold_bind_entry_agrees; [exact Hka|exact Hfree|].
  unfold agrees, unbound. cbn [own functions].
  rewrite lookup_singleton_ne by (intros Heq; apply Hka; symmetry; exact Heq).
  rewrite lookup_empty. reflexivity.
Qed.

Lemma lower_ascii_string_idempotent (s : string) :
  lower_ascii_string (lower_ascii_string s) = lower_ascii_string s.
Proof.
  induction s as [|ch s IH]; [reflexivity|]. simpl. rewrite IH. f_equal.
  unfold lower_ascii.
  destruct (Nat.leb 65 (nat_of_ascii ch) && Nat.leb (nat_of_ascii ch) 90)%bool
    eqn:Hup.
  - apply andb_true_iff in Hup as [Hlo Hhi].
    apply Nat.leb_le in Hlo, Hhi.
    rewrite nat_ascii_embedding by lia.
    destruct (Nat.leb_spec (nat_of_ascii ch + 32) 90); [lia|].
    rewrite andb_false_r. reflexivity.
  - rewrite Hup. reflexivity.
Qed.

(** X23: the constructor lowers a non-empty address string with
    [toLowerCase] and binds the instance to the ABI and the backend it is
    given; where lowering the stored address again gives the same string,
    constructing again from the stored address gives the same instance.  A
    truthy address that is not a string and has no [toLowerCase] function of
    its own (a number, [true], a function, a plain object or array) makes the
    construction fail. *)
Theorem constructor_normalizes_address
    (schema : Abi) (s : string) (backend : Backend) :
  s <> "" ->
  (exists c,
     new_Contract schema (VStr s) backend = ret c
     /\ address c = VStr (toLowerCase s)
     /\ abi c = schema
     /\ providerOrAccount c = backend
     /\ (toLowerCase (toLowerCase s) = toLowerCase s ->
         new_Contract schema (address c) backend = ret c))
  /\ (forall v, truthy v = true ->
                (forall s', v <> VStr s') ->
                (forall f, get v "toLowerCase" <> VFun f) ->
                new_Contract schema v backend
                = throw (TypeError "address.toLowerCase is not a function")).
Proof.
  intros Hs. split.
  - destruct (new_Contract_string schema s backend Hs) as (c & Hnew & Ha & Hb).
    exists c. split; [exact Hnew|]. split; [exact Ha|].
    split; [|split; [exact Hb|]].
    + destruct (new_Contract_fold _ _ _ _ _ Hnew) as [a' ->].
      apply abi_fold_bind_entry.
    + intros Hidem. rewrite Ha. unfold new_Contract, lowered in *.
      cbn [truthy] in *.
      destruct (String.eqb_spec s ""); [contradiction|]. cbn [negb] in Hnew.
      destruct (String.eqb_spec (toLowerCase s) "") as [Hempty|].
      { exfalso. exact (toLowerCase_nonempty s Hs Hempty). }
      cbn [negb]. rewrite Hidem. exact Hnew.
  - intros v Hv Hns _. unfold new_Contract, lowered. rewrite Hv.
    destruct v; try reflexivity. exfalso. exact (Hns s0 eq_refl).
Qed.


(** ** The factory *)

Lemma readonly_bind_entry (this : Contract) (e : AbiEntry) :
  readonly (bind_entry this e) =
  if is_function e && negb (member_truthy (this_member this (name e)))
  then {[name e]} ∪ readonly this
  else readonly this.
Proof. bind_entry_cases. Qed.

Lemma fold_bind_entry_writable (entries : list AbiEntry) (this : Contract)
    (k : string) :
  k ∉ readonly this ->
  (forall e, In e entries -> is_function e = true -> name e <> k) ->
  k ∉ readonly (fold_left bind_entry entries this).
Proof.
  revert this. induction entries as [|e entries IH]; intros this Hk Hother;
    [exact Hk|].
  simpl. apply IH; [|intros e' He'; apply Hother; right; exact He'].
  rewrite readonly_bind_entry.
  destruct (is_function e) eqn:Hf; [|exact Hk]. cbn [andb].
  destruct (negb _); [|exact Hk].
  assert (Hne : name e <> k) by (apply Hother; [left; reflexivity|exact Hf]).
  apply not_elem_of_union. split; [|exact Hk].
  apply not_elem_of_singleton. intros Heq. apply Hne. symmetry. exact Heq.
Qed.

Lemma deploy_resolved (this : ContractFactory) (rest : list value)
    (params : Params) (t : list event) (cd : value) :
  splitArgsAndOptions rest = ret params ->
  constructor_calldata this params = (t, Ok cd) ->
  deploy this rest =
  let options :=
    default_to (VObj {[ "parseRequest" := VBool true ]}) (options params) in
  ((t ++ trace (finish_deploy this options cd))%list,
   result (finish_deploy this options cd)).
Proof.
  intros Hsplit Hcd. rewrite deploy_steps, Hsplit, bind_ret, Hcd.
  unfold bind, trace, result. cbv zeta.
  destruct (finish_deploy _ _ _). reflexivity.
Qed.

(** X24: the check of the deployed address.  Whatever the constructor
    arguments resolved to, when the account answers the deployment without a
    usable [contract_address] (undefined, [null], the empty string), [deploy]
    fails with the error of the failed deployment right after the request,
    and no instance is returned. *)
Theorem deploy_fails_without_address
    (this : ContractFactory) (rest : list value) (params : Params)
    (t : list event) (cd : value)
    (send : DeployPayload -> outcome DeployResponse) (r : DeployResponse) :
  splitArgsAndOptions rest = ret params ->
  constructor_calldata this params = (t, Ok cd) ->
  declareAndDeploy (account this) = Some send ->
  let options :=
    default_to (VObj {[ "parseRequest" := VBool true ]}) (options params) in
  send (payload_of this options cd) = Ok r ->
  truthy (contract_address r) = false ->
  deploy this rest =
  ((t ++ [EvDeclareAndDeploy (payload_of this options cd)])%list,
   Throw (Error deployment_failed)).
Proof.
  intros Hsplit Hcd Hsend options Hr Hfalsy.
  rewrite (deploy_resolved _ _ _ _ _ Hsplit Hcd). cbv zeta. fold options.
  rewrite (finish_deploy_no_address this options cd send r Hsend Hr Hfalsy).
  reflexivity.
Qed.

(** X25: a successful deployment and its confirmation.  When the account
    answers with a non-empty address string and the compiled ABI has no
    function entry named [deployTransactionHash], [deploy] returns an
    instance bound to the lowered address, to the account and to the ABI of
    the compiled contract, which carries the transaction hash; [deployed] on
    that instance waits for exactly this hash and clears it. *)
Theorem deploy_then_deployed
    (this : ContractFactory) (rest : list value) (params : Params)
    (t : list event) (cd h : value) (s : string)
    (send : DeployPayload -> outcome DeployResponse) :
  splitArgsAndOptions rest = ret params ->
  constructor_calldata this params = (t, Ok cd) ->
  declareAndDeploy (account this) = Some send ->
  let options :=
    default_to (VObj {[ "parseRequest" := VBool true ]}) (options params) in
  send (payload_of this options cd)
  = Ok {| contract_address := VStr s; transaction_hash := h |} ->
  s <> "" ->
  (forall e, In e (compiled_abi (compiledContract this)) ->
             type e = "function" -> name e <> "deployTransactionHash") ->
  exists c,
    deploy this rest =
    ((t ++ [EvDeclareAndDeploy (payload_of this options cd)])%list, Ok c)
    /\ address c = VStr (toLowerCase s)
    /\ providerOrAccount c = account this
    /\ abi c = compiled_abi (compiledContract this)
    /\ deployTransactionHash c = h
    /\ (truthy h = true ->
        waitForTransaction (account this) h = Ok tt ->
        exists c',
          deployed c = ([EvWaitForTransaction h], Ok c')
          /\ deployTransactionHash c' = VUndefined
          /\ address c' = address c).
Proof.
  intros Hsplit Hcd Hsend options Hr Hs Hfree.
  destruct (finish_deploy_address this options cd send h s Hsend Hr Hs)
    as (bound & Hnew & Hfinish).
  destruct (new_Contract_string (compiled_abi (compiledContract this)) s
              (account this) Hs) as (bound' & Hnew' & Haddr & Hback).
  rewrite Hnew in Hnew'. injection Hnew' as <-.
  destruct (new_Contract_fold _ _ _ _ _ Hnew) as [a' Hfold].
  assert (Hw : "deployTransactionHash" ∉ readonly bound).
  { rewrite Hfold. apply fold_bind_entry_writable.
    - unfold unbound. cbn [readonly]. set_solver.
    - intros e Hin Hf. apply Hfree; [exact Hin|].
      unfold is_function in Hf. apply String.eqb_eq in Hf. exact Hf. }
  rewrite bool_decide_eq_false_2 in Hfinish by exact Hw.
  exists (set_own "deployTransactionHash" h bound).
  assert (Hhash : deployTransactionHash (set_own "deployTransactionHash" h bound)
                  = h).
  { unfold deployTransactionHash, set_own. cbn [own].
    rewrite lookup_insert_eq. reflexivity. }
  assert (Hkeep : address (set_own "deployTransactionHash" h bound)
                  = address bound).
  { unfold address, set_own. cbn [own].
    rewrite lookup_insert_ne by discriminate. reflexivity. }
  split; [|split; [|split; [|split; [|split]]]].
  - rewrite (deploy_resolved _ _ _ _ _ Hsplit Hcd). cbv zeta. fold options.
    rewrite Hfinish. reflexivity.
  - rewrite Hkeep. exact Haddr.
  - exact Hback.
  - cbn [abi set_own]. rewrite Hfold. apply abi_fold_bind_entry.
  - exact Hhash.
  - intros Hh Hok.
    exists (set_own "deployTransactionHash" VUndefined
              (set_own "deployTransactionHash" h bound)).
    split; [|split].
    + unfold deployed. rewrite Hhash, Hh, bind_emit.
      cbn [providerOrAccount set_own]. rewrite Hback, Hok.
      unfold assign. cbn [readonly set_own].
      rewrite bool_decide_eq_false_2 by exact Hw. reflexivity.
    + unfold deployTransactionHash, set_own. cbn [own].
      rewrite lookup_insert_eq. reflexivity.
    + unfold address, set_own. cbn [own].
      rewrite !lookup_insert_ne by discriminate. reflexivity.
Qed.

(** X26: tagged constructor Calldata goes through [deploy] untouched: it
    is neither validated nor compiled, no warning is logged, and it is the
    [constructorCalldata] of the request to the account. *)
Theorem deploy_precompiled_calldata
    (this : ContractFactory) (cd : value) :
  tagged cd = true ->
  splitArgsAndOptions [cd] = ret {| args := [cd]; options := VObj ∅ |} ->
  quiet is_request_helper (deploy this [cd])
  /\ quiet is_warning (deploy this [cd])
  /\ Forall (fun sent => sent = cd) (deployed_calldata (trace (deploy this [cd])))
  /\ (is_Some (declareAndDeploy (account this)) ->
      exists t, trace (deploy this [cd]) =
                EvDeclareAndDeploy (payload_of this (VObj ∅) cd) :: t).
Proof.
  intros Htag Hsplit.
  assert (Hpre : precompiled (VArr ∅ [cd]) = Some cd).
  { unfold precompiled. change (tagged (VArr ∅ [cd])) with false.
    rewrite Htag. reflexivity. }
  assert (Hcd : constructor_calldata this {| args := [cd]; options := VObj ∅ |}
                = ret cd).
  { unfold constructor_calldata. cbn [args options].
    apply (getCalldata_precompiled _ _ _ Hpre). }
  rewrite (deploy_resolved _ _ _ _ _ Hsplit Hcd). cbn [options app].
  change (default_to (VObj {[ "parseRequest" := VBool true ]}) (VObj ∅))
    with (VObj ∅).
  cbv zeta.
  assert (Hwarn : quiet is_warning (finish_deploy this (VObj ∅) cd)).
  { unfold finish_deploy.
    destruct (declareAndDeploy (account this)) as [send|]; [|apply quiet_throw].
    apply quiet_bind; [apply quiet_emit; reflexivity|]. intros _.
    apply quiet_bind; [apply quiet_lift|]. intros r.
    apply quiet_bind; [apply quiet_assert|]. intros _.
    apply quiet_bind.
    - unfold quiet. rewrite new_Contract_silent. constructor.
    - intros c. unfold assign. destruct (bool_decide _); auto with quiet. }
  split; [exact (finish_deploy_quiet this (VObj ∅) cd)|].
  split; [exact Hwarn|].
  split; [exact (deployed_calldata_finish this (VObj ∅) cd)|].
  intros [send Hsend]. cbn [trace fst]. unfold finish_deploy. rewrite Hsend.
  fold (payload_of this (VObj ∅) cd). rewrite trace_bind_emit. eauto.
Qed.

(** X27: which ABI an instance gets from the factory.  [attach] binds the
    new instance to the factory's own ABI, the one given to the constructor
    or else the one of the compiled contract, to the factory's account and to
    the lowered address; after [connect] it is the new account. *)
Theorem factory_attach
    (params : CFParams) (account' : Backend) (s : string) :
  s <> "" ->
  let factory := new_ContractFactory params in
  (exists c,
     ContractFactory_attach factory (VStr s) = ret c
     /\ abi c = match params_abi params with
                | Some given => given
                | None => compiled_abi (params_compiledContract params)
                end
     /\ address c = VStr (toLowerCase s)
     /\ providerOrAccount c = params_account params)
  /\ (exists c,
        ContractFactory_attach (ContractFactory_connect factory account') (VStr s)
        = ret c
        /\ providerOrAccount c = account'
        /\ abi c = factory_abi factory).
Proof.
  intros Hs factory. split.
  - destruct (new_Contract_string (factory_abi factory) s (account factory) Hs)
      as (c & Hnew & Ha & Hb).
    exists c. split; [exact Hnew|]. split; [|split; [exact Ha|exact Hb]].
    destruct (new_Contract_fold _ _ _ _ _ Hnew) as [a' ->].
    rewrite abi_fold_bind_entry. reflexivity.
  - destruct (new_Contract_string (factory_abi factory) s account' Hs)
      as (c & Hnew & Ha & Hb).
    exists c. split; [exact Hnew|]. split; [exact Hb|].
    destruct (new_Contract_fold _ _ _ _ _ Hnew) as [a' ->].
    rewrite abi_fold_bind_entry. reflexivity.
Qed.

Lemma buildDefault_injective (this this' : Contract) (e e' : AbiEntry) :
  buildDefault this e = buildDefault this' e' -> e = e'.
Proof.
  unfold buildDefault, buildCall, buildInvoke.
  destruct (is_view e), (is_view e'); intros [= ->]; reflexivity.
Qed.

(** X28: of several function entries of one name the first is the one
    bound, in all four collections, whatever the later ones say: a later
    entry of the same name with another mutability changes nothing. *)
Theorem first_function_entry_wins
    (before later : list AbiEntry) (e : AbiEntry) (a : value)
    (backend : Backend) (t : list event) (c : Contract) :
  new_Contract (before ++ e :: later)%list a backend = (t, Ok c) ->
  type e = "function" ->
  mem (name e) object_prototype = false ->
  (forall e', In e' before -> type e' = "function" -> name e' <> name e) ->
  functions c !! name e = Some (buildDefault c e)
  /\ callStatic c !! name e = Some (buildCall c e)
  /\ populateTransaction c !! name e = Some (buildPopulate c e)
  /\ estimateFee c !! name e = Some (buildEstimate c e).
Proof.
  intros Hnew Ht Hp Hfirst.
  pose proof (new_Contract_bundled _ _ _ _ _ (name e) Hnew) as Hb.
  destruct (new_Contract_fold _ _ _ _ _ Hnew) as [a' Hfold].
  assert (Hf : is_function e = true) by (unfold is_function; rewrite Ht; reflexivity).
  assert (Hwin : functions c !! name e
                 = Some (buildDefault
                           (unbound (before ++ e :: later)%list a' backend) e)).
  { rewrite Hfold. apply functions_first_wins; try assumption.
    - apply lookup_empty.
    - intros e' Hin Hf'. apply Hfirst; [exact Hin|].
      unfold is_function in Hf'. apply String.eqb_eq in Hf'. exact Hf'. }
  destruct Hb as [(Hnone & _)|(e0 & _ & _ & _ & H1 & H2 & H3 & H4)].
  - rewrite Hnone in Hwin. discriminate Hwin.
  - rewrite H1 in Hwin. injection Hwin as Heq.
    apply buildDefault_injective in Heq. subst e0.
    repeat split; assumption.
Qed.

(** X29: [deploy] with [parseRequest] truthy in a trailing options record:
    the constructor arguments before the record are validated under DEPLOY
    against the entry named [constructor] and compiled, and the compiled
    calldata is what the account receives; if the validation fails, [deploy]
    fails with that error and asks nothing of the account. *)
Theorem deploy_validates_on_request
    (this : ContractFactory) (init : list value) (p : gmap string value)
    (v : value) :
  p !! "parseRequest" = Some v -> truthy v = true ->
  precompiled (VArr ∅ init) = None ->
  (forall e,
     validate (factory_abi this) DEPLOY "constructor" (VArr ∅ init) = Throw e ->
     deploy this (init ++ [VObj p])
     = ([EvValidate DEPLOY "constructor" (VArr ∅ init)], Throw e))
  /\ (forall cd send,
        validate (factory_abi this) DEPLOY "constructor" (VArr ∅ init) = Ok tt ->
        compileNamed (factory_abi this) "constructor" (VArr ∅ init) = Ok cd ->
        declareAndDeploy (account this) = Some send ->
        exists t,
          trace (deploy this (init ++ [VObj p])) =
          EvValidate DEPLOY "constructor" (VArr ∅ init)
          :: EvCompile (VArr ∅ init)
          :: EvDeclareAndDeploy (payload_of this (VObj p) cd) :: t).
Proof.
  intros Hp Hv Hraw. split.
  - intros e He.
    rewrite deploy_steps, splitArgsAndOptions_split_with, split_with_record.
    assert (Hkey : existsb (has_key p) option_names = true).
    { apply existsb_exists. exists "parseRequest". split.
      - unfold option_names. simpl. auto.
      - unfold has_key. apply bool_decide_eq_true_2. rewrite Hp. eauto. }
    rewrite Hkey, bind_ret. unfold constructor_calldata. cbn [args options].
    rewrite (getCalldata_raw _ _ Hraw). cbn [nullish is_null is_undefined orb].
    cbn [default_to is_undefined get]. rewrite Hp. cbn [from_option].
    rewrite Hv. unfold callData_validate. rewrite He. reflexivity.
  - intros cd send Hvalid Hcompile Hsend.
    rewrite (deploy_explicit_parseRequest this init p v cd Hp Hv Hraw Hvalid
               Hcompile).
    cbn [trace fst]. unfold finish_deploy. rewrite Hsend.
    fold (payload_of this (VObj p) cd). rewrite trace_bind_emit. eauto.
Qed.

(** ** Deployment through the imported splitter *)





(** ** Estimation without the capability *)

(** C4: [estimate] on a backend without [estimateInvokeFee], for a method
    of the ABI, an address that is not [null] and arguments that are tagged
    Calldata or else raw arguments that pass validation and compile.
    [populate] on its own succeeds and returns the Call to that address and
    method with the tagged or compiled calldata; [estimate] validates raw
    arguments under INVOKE first (tagged Calldata is not validated), then
    runs that same [populate] to its end, and only then fails with the error
    of the missing capability, having asked nothing of the backend. *)
Theorem estimate_without_fee_estimation
    (this : Contract) (method : string) (args cd : value) (entry : AbiEntry) :
  estimateInvokeFee (providerOrAccount this) = None ->
  address this <> VNull ->
  find (fun abi => String.eqb (name abi) method) (abi this) = Some entry ->
  let args' := default_to (VArr ∅ []) args in
  precompiled args = Some cd
  \/ (precompiled args = None /\ is_null args = false
      /\ validate (abi this) INVOKE method args' = Ok tt
      /\ compile (abi this) args' (inputs entry) = Ok cd) ->
  let request := {| contractAddress := address this; entrypoint := method;
                    calldata := cd |} in
  let validated := match precompiled args with
                   | Some _ => []
                   | None => [EvValidate INVOKE method args']
                   end in
  let compiled := match precompiled args with
                  | Some _ => []
                  | None => [EvCompile args']
                  end in
  populate this method args = (compiled, Ok request)
  /\ estimate this method args =
     ((validated ++ compiled)%list, Throw (Error not_an_account))
  /\ quiet is_backend (estimate this method args).
Proof.
  intros Hcap Ha Hfind args' Hargs request validated compiled.
  assert (Hpop : populate this method args = (compiled, Ok request)).
  { subst compiled request. destruct Hargs as [Hcd|(Hraw & Hnull & _ & Hcompile)].
    - rewrite Hcd, (populate_precompiled _ _ _ _ Hcd).
      rewrite (find_inputs_entry _ _ _ Hfind), bind_ret. reflexivity.
    - rewrite Hraw. unfold populate. fold args'.
      rewrite (find_inputs_entry _ _ _ Hfind), bind_ret.
      pose proof Hraw as Hraw'. rewrite <- precompiled_default in Hraw'.
      fold args' in Hraw'.
      rewrite (getCalldata_raw _ _ Hraw'). unfold args' at 1.
      rewrite (nullish_default _ Hnull).
      unfold callData_compile. rewrite Hcompile.
      unfold bind, emit, lift. simpl. reflexivity. }
  split; [exact Hpop|].
  assert (Hvalid : precompiled args = None ->
                   validate (abi this) INVOKE method args' = Ok tt).
  { intros Hraw. destruct Hargs as [Hcd|(_ & _ & Hvalid & _)]; [|exact Hvalid].
    rewrite Hcd in Hraw. discriminate Hraw. }
  exact (estimate_after_populate this method args compiled request
           Hcap Ha Hvalid Hpop).
Qed.

(** ** A trailing [null], operation by operation *)

Lemma emit_first_not_throw {A B} (ev : event) (k1 : unit -> M A)
    (k2 : A -> M B) (e : error) :
  bind (bind (emit ev) k1) k2 <> throw e.
Proof.
  intros H. destruct (trace_emit_first ev k1 k2) as [t Ht].
  rewrite H in Ht. discriminate Ht.
Qed.

Lemma populate_not_in_null (this : Contract) (method : string) (rest : list value) :
  populate this method (VArr ∅ rest) <> throw in_null.
Proof.
  unfold populate, find_inputs. cbn [default_to is_undefined].
  destruct (find _ _) as [entry|]; [rewrite bind_ret|discriminate].
  unfold getCalldata. change (truthy (get_opt (VArr ∅ rest) "compiled")) with false.
  cbv iota. cbn [first_element]. rewrite bind_ret.
  destruct (truthy _).
  - rewrite bind_ret. discriminate.
  - unfold callData_compile. apply emit_first_not_throw.
Qed.

Lemma estimate_not_in_null (this : Contract) (method : string) (rest : list value) :
  estimate this method (VArr ∅ rest) <> throw in_null.
Proof.
  unfold estimate. cbn [default_to is_undefined]. rewrite bind_assert.
  destruct (negb (is_null (address this))); [|discriminate].
  unfold getCalldata. change (truthy (get_opt (VArr ∅ rest) "compiled")) with false.
  cbv iota. cbn [first_element]. rewrite bind_ret.
  destruct (truthy (get_opt (from_option (head rest)) "compiled")) eqn:Htag.
  - rewrite bind_ret.
    rewrite (tagged_truthy (from_option (head rest)) Htag). cbn [negb].
    rewrite bind_ret.
    destruct (populate this method (VArr ∅ rest)) as [t [c|e]] eqn:Hpop.
    + rewrite bind_logged. destruct (estimateInvokeFee _) as [fee|].
      * rewrite bind_emit. cbn [trace fst]. intros H.
        apply (f_equal fst) in H. cbn in H.
        destruct t; discriminate H.
      * cbn. intros H. injection H as _ H. discriminate H.
    + cbn. intros H. injection H as Ht He. subst t e.
      exact (populate_not_in_null this method rest Hpop).
  - rewrite bind_ret. cbn [truthy negb]. unfold callData_validate.
    apply emit_first_not_throw.
Qed.

(** C10, amended: a default or pure-read operation called with a trailing
    [null] throws the TypeError of [in] on [null], with an empty log: before
    any validation, compilation or request to the backend.  The
    populate-only and the estimate-only operation do not run the splitter:
    they pass their argument list whole to [populate] and [estimate], never
    fail in that way, and with a trailing [null] the list, [null] included,
    is what the helper is given to compile or to validate. *)
Theorem trailing_null_throws
    (contract : Contract) (functionAbi : AbiEntry) (init : list value) :
  (apply contract (buildCall contract functionAbi) (init ++ [VNull])
   = throw in_null
   /\ apply contract (buildInvoke contract functionAbi) (init ++ [VNull])
      = throw in_null
   /\ apply contract (buildDefault contract functionAbi) (init ++ [VNull])
      = throw in_null)
  /\ (forall rest,
        apply contract (buildPopulate contract functionAbi) rest
        = (c <- populate contract (name functionAbi) (VArr ∅ rest) ;;
           ret (call_object c))
        /\ apply contract (buildEstimate contract functionAbi) rest
           = estimate contract (name functionAbi) (VArr ∅ rest)
        /\ apply contract (buildPopulate contract functionAbi) rest
           <> throw in_null
        /\ apply contract (buildEstimate contract functionAbi) rest
           <> throw in_null)
  /\ (forall entry cd,
        precompiled (VArr ∅ (init ++ [VNull])) = None ->
        find (fun abi => String.eqb (name abi) (name functionAbi)) (abi contract)
        = Some entry ->
        compile (abi contract) (VArr ∅ (init ++ [VNull])) (inputs entry) = Ok cd ->
        apply contract (buildPopulate contract functionAbi) (init ++ [VNull])
        = ([EvCompile (VArr ∅ (init ++ [VNull]))],
           Ok (call_object {| contractAddress := address contract;
                              entrypoint := name functionAbi;
                              calldata := cd |})))
  /\ (precompiled (VArr ∅ (init ++ [VNull])) = None ->
      address contract <> VNull ->
      exists t,
        trace (apply contract (buildEstimate contract functionAbi)
                 (init ++ [VNull]))
        = EvValidate INVOKE (name functionAbi) (VArr ∅ (init ++ [VNull])) :: t).
Proof.
  split; [exact (trailing_null_in_splitter contract functionAbi init)|].
  split; [|split].
  - intros rest. split; [reflexivity|]. split; [reflexivity|]. split.
    + unfold buildPopulate, apply. intros H.
      destruct (populate contract (name functionAbi) (VArr ∅ rest))
        as [t [c|e]] eqn:Hpop.
      * rewrite bind_logged in H. injection H as _ H. discriminate H.
      * cbn in H. injection H as Ht He. subst t e.
        exact (populate_not_in_null contract (name functionAbi) rest Hpop).
    + unfold buildEstimate, apply. apply estimate_not_in_null.
  - intros entry cd Hraw Hfind Hcompile.
    unfold buildPopulate, apply, populate. cbn [default_to is_undefined].
    rewrite (find_inputs_entry _ _ _ Hfind), bind_ret.
    rewrite (getCalldata_raw _ _ Hraw). cbn [nullish is_null is_undefined orb].
    unfold callData_compile. rewrite Hcompile.
    unfold bind, emit, lift. simpl. reflexivity.
  - intros Hraw Ha.
    unfold buildEstimate, apply, estimate. cbn [default_to is_undefined].
    rewrite bind_assert, (is_null_false _ Ha). cbn [negb].
    rewrite (getCalldata_raw _ _ Hraw). cbn [nullish is_null is_undefined orb].
    rewrite bind_ret. cbn [truthy negb]. unfold callData_validate.
    apply trace_emit_first.
Qed.

End Coverage.

(** ** The further statements on the fixtures *)

(** The examples run on ASCII strings. *)
#[local] Existing Instance ascii_runtime.

Ltac settle :=
  first [ vm_compute; reflexivity
        | vm_compute; discriminate
        | vm_compute; congruence
        | vm_compute; repeat constructor ].

Ltac conclude W := vm_compute in W; vm_compute; exact W.

Lemma splitArgsAndOptions_trailing_array_witness :
  typeof (VNum 2) <> "object"
  /\ splitArgsAndOptions [VNum 1; sample_calldata] =
     ret {| args := [VNum 1; sample_calldata]; options := VObj ∅ |}.
Proof.
  split; [settle|].
  unshelve epose proof (splitArgsAndOptions_trailing_array [VNum 1]
                          {[ "compiled" := VBool true ]} [VStr "1"; VStr "2"]
                          (VNum 2) _ _) as [W _]; [settle..|].
  exact W.
Defined.

Lemma call_raw_arguments_witness :
  precompiled raw_five = None
  /\ @call tagging_CallData provider_contract "get_balance" raw_five VUndefined =
     ([EvValidate CALL "get_balance" raw_five; EvCompile raw_five;
       EvCallContract (request_to "get_balance" compiled_five) VUndefined;
       EvParse "get_balance" (VArr ∅ [VNum 7])],
      Ok (VArr ∅ [VNum 7])).
Proof.
  split; [settle|].
  unshelve epose proof (@call_raw_arguments tagging_CallData provider_contract
                          "get_balance" raw_five compiled_five view_entry
                          _ _ _ _ _ _) as W; [settle..|].
  conclude W.
Defined.

Lemma validation_failure_stops_witness :
  @validate rejecting_CallData sample_abi CALL "get_balance" raw_five
  = Throw (Rejected "invalid arguments")
  /\ @call rejecting_CallData provider_contract "get_balance" raw_five VUndefined =
     ([EvValidate CALL "get_balance" raw_five],
      Throw (Rejected "invalid arguments")).
Proof.
  split; [settle|].
  unshelve epose proof (@validation_failure_stops rejecting_CallData
                          provider_contract "get_balance" raw_five VUndefined
                          view_entry (Rejected "invalid arguments")
                          _ _ _ _ _ _) as [W _]; [settle..|].
  apply W. settle.
Defined.

Lemma unknown_method_witness :
  ~ In "mint" (map name (abi provider_contract))
  /\ @populate tagging_CallData provider_contract "mint" sample_calldata
     = throw no_inputs.
Proof.
  assert (Hout : ~ In "mint" (map name (abi provider_contract)))
    by (vm_compute; intros [H|[H|[]]]; discriminate H).
  split; [exact Hout|].
  unshelve epose proof (@unknown_method tagging_CallData provider_contract
                          "mint" sample_calldata sample_calldata Hout _)
    as [W _]; [settle|].
  exact W.
Defined.

Lemma null_address_rejected_witness :
  address null_contract = VNull
  /\ @invoke tagging_CallData null_contract "set_balance" sample_calldata VUndefined
     = throw (Error not_connected).
Proof.
  split; [settle|].
  unshelve epose proof (@null_address_rejected tagging_CallData null_contract
                          "set_balance" sample_calldata VUndefined _ _)
    as (_ & W & _); [settle..|].
  exact W.
Defined.

Lemma call_response_handling_witness :
  precompiled sample_calldata = Some sample_calldata
  /\ @call tagging_CallData provider_contract "get_balance" sample_calldata
       (VObj {[ "parseResponse" := VBool false;
                "formatResponse" := VObj {[ "balance" := VStr "string" ]} ]})
     = ([EvCallContract (request_to "get_balance" sample_calldata) VUndefined],
        Ok (VArr ∅ [VNum 7])).
Proof.
  split; [settle|].
  unshelve epose proof (@call_response_handling tagging_CallData provider_contract
                          "get_balance" sample_calldata sample_calldata
                          {[ "parseResponse" := VBool false;
                             "formatResponse" := VObj {[ "balance" := VStr "string" ]} ]}
                          _ _) as W; [settle..|].
  conclude W.
Defined.

Lemma bound_call_skips_parsing_witness :
  precompiled (VArr ∅ [VNum 5]) = None
  /\ sent_calls (trace (@apply tagging_CallData provider_contract
                          (buildCall provider_contract view_entry)
                          [VNum 5; VObj {[ "parseRequest" := VBool false ]}]))
     = [request_to "get_balance" raw_five].
Proof.
  split; [settle|].
  unshelve epose proof (@bound_call_skips_parsing tagging_CallData
                          provider_contract view_entry [VNum 5]
                          {[ "parseRequest" := VBool false ]} (VBool false)
                          _ _ _ _) as (_ & W & _); [settle..|].
  conclude W.
Defined.

Lemma invoke_with_account_witness :
  execute (providerOrAccount account_contract)
  = Some (fun _ _ _ => Ok sample_receipt)
  /\ @invoke tagging_CallData account_contract "set_balance" sample_calldata
       (VObj {[ "maxFee" := VNum 10 ]})
     = ([EvExecute (request_to "set_balance" sample_calldata) (VNum 10) VUndefined],
        Ok sample_receipt).
Proof.
  split; [settle|].
  unshelve epose proof (@invoke_with_account tagging_CallData account_contract
                          "set_balance" sample_calldata sample_calldata
                          (VObj {[ "maxFee" := VNum 10 ]})
                          (fun _ _ _ => Ok sample_receipt) _ _ _)
    as [W _]; [settle..|].
  specialize (W ltac:(settle)). conclude W.
Defined.

Lemma invoke_direct_with_nonce_witness :
  truthy (get (VObj {[ "nonce" := VNum 3 ]}) "nonce") = true
  /\ @invoke tagging_CallData provider_contract "set_balance" sample_calldata
       (VObj {[ "nonce" := VNum 3 ]})
     = ([EvWarn "Invoking set_balance without an account. This will not work on a public node.";
         EvInvokeFunction (request_to "set_balance" sample_calldata)
           VUndefined (VNum 3)],
        Ok sample_receipt).
Proof.
  split; [settle|].
  unshelve epose proof (@invoke_direct_with_nonce tagging_CallData
                          provider_contract "set_balance" sample_calldata
                          sample_calldata (VObj {[ "nonce" := VNum 3 ]})
                          _ _ _ _ _) as W; [settle..|].
  conclude W.
Defined.

Lemma estimate_with_account_witness :
  @populate tagging_CallData account_contract "set_balance" raw_five
  = ([EvCompile raw_five], Ok (request_to "set_balance" compiled_five))
  /\ @estimate tagging_CallData account_contract "set_balance" raw_five
     = ([EvValidate INVOKE "set_balance" raw_five; EvCompile raw_five;
         EvEstimateInvokeFee (request_to "set_balance" compiled_five)],
        Ok (VObj {[ "overall_fee" := VNum 5 ]})).
Proof.
  split; [settle|].
  unshelve epose proof (@estimate_with_account tagging_CallData account_contract
                          "set_balance" raw_five [EvCompile raw_five]
                          (request_to "set_balance" compiled_five)
                          (fun _ => Ok (VObj {[ "overall_fee" := VNum 5 ]}))
                          _ _ _ _) as W; [settle..|].
  conclude W.
Defined.

Lemma populate_only_keeps_options_record_witness :
  precompiled (VArr ∅ [VNum 5; VObj {[ "maxFee" := VNum 10 ]}]) = None
  /\ trace (@apply tagging_CallData provider_contract
              (buildPopulate provider_contract write_entry)
              [VNum 5; VObj {[ "maxFee" := VNum 10 ]}])
     = [EvCompile (VArr ∅ [VNum 5; VObj {[ "maxFee" := VNum 10 ]}])].
Proof.
  split; [settle|].
  unshelve epose proof (@populate_only_keeps_options_record tagging_CallData
                          provider_contract write_entry [VNum 5]
                          {[ "maxFee" := VNum 10 ]}
                          (tag (VArr ∅ [VNum 5; VObj {[ "maxFee" := VNum 10 ]}]))
                          write_entry _ _ _ _) as [W _]; [settle..|].
  apply (f_equal fst) in W. conclude W.
Defined.

Lemma populate_raw_arguments_witness :
  address null_contract = VNull
  /\ @populate tagging_CallData null_contract "set_balance" raw_five
     = ([EvCompile raw_five],
        Ok {| contractAddress := VNull; entrypoint := "set_balance";
              calldata := compiled_five |}).
Proof.
  split; [settle|].
  unshelve epose proof (@populate_raw_arguments tagging_CallData null_contract
                          "set_balance" raw_five compiled_five write_entry
                          _ _ _ _) as W; [settle..|].
  conclude W.
Defined.

Lemma attach_rebinds_witness :
("address" ∉ readonly provider_contract)
  /\ exists this',
       attach provider_contract (VStr "0xAB") = ret this'
       /\ address this' = VStr "0xAB".
Proof.
  assert (Hw : "address" ∉ readonly provider_contract)
    by (vm_compute; intros H; discriminate H).
  split; [exact Hw|].
  destruct (@attach_rebinds tagging_CallData provider_contract (VStr "0xAB")
              "get_balance" sample_calldata sample_calldata Hw)
    as (this' & Hret & Haddr & _).
  exists this'. split; assumption.
Defined.

Lemma connect_rebinds_witness :
  estimateInvokeFee (providerOrAccount provider_contract) = None
  /\ @estimate tagging_CallData (connect provider_contract sample_account)
       "set_balance" sample_calldata
     = ([EvEstimateInvokeFee (request_to "set_balance" sample_calldata)],
        Ok (VObj {[ "overall_fee" := VNum 5 ]})).
Proof.
  split; [settle|].
  unshelve epose proof (@connect_rebinds tagging_CallData provider_contract
                          sample_account "set_balance" sample_calldata
                          sample_calldata
                          (fun _ => Ok (VObj {[ "overall_fee" := VNum 5 ]}))
                          _ _ _ _) as [W _].
  - settle.
  - settle.
  - settle.
  - vm_compute. auto.
  - conclude W.
Defined.

Lemma deployed_waits_once_witness :
  ("deployTransactionHash" ∉ readonly pending_contract)
  /\ exists this',
       deployed pending_contract
       = ([EvWaitForTransaction (VStr "0xabc")], Ok this')
       /\ deployTransactionHash this' = VUndefined
       /\ deployed this' = ret this'.
Proof.
  assert (Hw : "deployTransactionHash" ∉ readonly pending_contract)
    by (vm_compute; intros H; discriminate H).
  split; [exact Hw|].
  destruct (deployed_waits_once pending_contract Hw) as (_ & _ & W).
  destruct W as (this' & Hrun & Hcleared & _ & Hagain); [settle..|].
  exists this'. repeat split; assumption.
Defined.

Lemma collections_bundle_one_entry_witness :
  new_Contract crowded_abi (VStr "0x1") sample_account = ([], Ok crowded_contract)
  /\ ((functions crowded_contract !! "transfer" = None
       /\ callStatic crowded_contract !! "transfer" = None
       /\ populateTransaction crowded_contract !! "transfer" = None
       /\ estimateFee crowded_contract !! "transfer" = None)
      \/ exists e, In e crowded_abi /\ type e = "function" /\ name e = "transfer"
           /\ functions crowded_contract !! "transfer"
              = Some (buildDefault crowded_contract e)
           /\ callStatic crowded_contract !! "transfer"
              = Some (buildCall crowded_contract e)
           /\ populateTransaction crowded_contract !! "transfer"
              = Some (buildPopulate crowded_contract e)
           /\ estimateFee crowded_contract !! "transfer"
              = Some (buildEstimate crowded_contract e)).
Proof.
  assert (Hnew : new_Contract crowded_abi (VStr "0x1") sample_account
                 = ([], Ok crowded_contract)) by settle.
  split; [exact Hnew|].
  exact (collections_bundle_one_entry crowded_abi (VStr "0x1") sample_account
           [] crowded_contract "transfer" Hnew).
Defined.

Lemma collections_never_do_witness :
  new_Contract crowded_abi (VStr "0x1") sample_account = ([], Ok crowded_contract)
  /\ quiet is_write
       (@apply tagging_CallData account_contract
          (FCall (function_entry "transfer" None)) [VNum 1]).
Proof.
  assert (Hnew : new_Contract crowded_abi (VStr "0x1") sample_account
                 = ([], Ok crowded_contract)) by settle.
  split; [exact Hnew|].
  destruct (@collections_never_do tagging_CallData ascii_runtime crowded_abi (VStr "0x1")
              sample_account [] crowded_contract "transfer"
              (FCall (function_entry "transfer" None)) account_contract
              [VNum 1] Hnew) as (W & _).
  apply W. settle.
Defined.

Lemma binder_exposes_witness :
  new_Contract crowded_abi (VStr "0x1") sample_account = ([], Ok crowded_contract)
  /\ is_Some (functions crowded_contract !! "attach")
  /\ functions crowded_contract !! "toString" = None.
Proof.
  assert (Hnew : new_Contract crowded_abi (VStr "0x1") sample_account
                 = ([], Ok crowded_contract)) by settle.
  split; [exact Hnew|].
  destruct (binder_exposes crowded_abi (VStr "0x1") sample_account
              [] crowded_contract Hnew) as (Hin & Hout).
  split.
  - apply (Hin (function_entry "attach" None)); [|settle..].
    vm_compute. auto 10.
  - destruct (Hout "toString") as (W & _); [settle|exact W].
Defined.


Lemma instance_agrees_with_functions_witness :
  new_Contract crowded_abi (VStr "0x1") sample_account = ([], Ok crowded_contract)
  /\ own crowded_contract !! "transfer"
     = VFun <$> functions crowded_contract !! "transfer".
Proof.
  assert (Hnew : new_Contract crowded_abi (VStr "0x1") sample_account
                 = ([], Ok crowded_contract)) by settle.
  split; [exact Hnew|].
  apply (instance_agrees_with_functions crowded_abi (VStr "0x1") sample_account
           [] crowded_contract "transfer" Hnew); settle.
Defined.

Lemma constructor_normalizes_address_witness :
  "0xAbC" <> ""
  /\ exists c,
       new_Contract sample_abi (VStr "0xAbC") sample_provider = ret c
       /\ address c = VStr "0xabc".
Proof.
  split; [discriminate|].
  unshelve epose proof (constructor_normalizes_address sample_abi "0xAbC"
                          sample_provider _) as [W _]; [discriminate|].
  destruct W as (c & Hnew & Haddr & _).
  exists c. split; [exact Hnew|exact Haddr].
Defined.

Lemma first_function_entry_wins_witness :
  new_Contract crowded_abi (VStr "0x1") sample_account = ([], Ok crowded_contract)
  /\ functions crowded_contract !! "transfer"
     = Some (FInvoke (function_entry "transfer" None)).
Proof.
  assert (Hnew : new_Contract crowded_abi (VStr "0x1") sample_account
                 = ([], Ok crowded_contract)) by settle.
  split; [exact Hnew|].
  unshelve epose proof (first_function_entry_wins
                          [entry_of_type "struct" "Point";
                           entry_of_type "constructor" "constructor"]
                          [function_entry "transfer" (Some "view");
                           function_entry "attach" None;
                           function_entry "toString" (Some "view")]
                          (function_entry "transfer" None)
                          (VStr "0x1") sample_account [] crowded_contract
                          Hnew _ _ _) as (W & _).
  - settle.
  - settle.
  - intros e' [<-|[<-|[]]] Ht; vm_compute in Ht; discriminate Ht.
  - exact W.
Defined.

Lemma factory_attach_witness :
  "0xAbC" <> ""
  /\ exists c,
       ContractFactory_attach (new_ContractFactory sample_params) (VStr "0xAbC")
       = ret c
       /\ abi c = crowded_abi
       /\ address c = VStr "0xabc".
Proof.
  split; [discriminate|].
  unshelve epose proof (factory_attach sample_params sample_provider "0xAbC" _)
    as [W _]; [discriminate|].
  destruct W as (c & Hnew & Habi & Haddr & _).
  exists c. repeat split; assumption.
Defined.

Lemma deploy_fails_without_address_witness :
  truthy VUndefined = false
  /\ @deploy tagging_CallData ascii_runtime failing_factory [sample_calldata]
     = ([EvDeclareAndDeploy
           {| dp_contract := {| compiled_abi := sample_abi |};
              dp_casm := VUndefined; dp_classHash := VUndefined;
              dp_compiledClassHash := VUndefined;
              dp_constructorCalldata := sample_calldata;
              dp_salt := VUndefined |}],
        Throw (Error deployment_failed)).
Proof.
  split; [reflexivity|].
  unshelve epose proof (@deploy_fails_without_address tagging_CallData ascii_runtime
                          failing_factory [sample_calldata]
                          {| args := [sample_calldata]; options := VObj ∅ |}
                          [] sample_calldata
                          (fun _ => Ok {| contract_address := VUndefined;
                                          transaction_hash := VStr "0xabc" |})
                          {| contract_address := VUndefined;
                             transaction_hash := VStr "0xabc" |}
                          _ _ _ _ _) as W; [settle..|].
  conclude W.
Defined.

Lemma deploy_then_deployed_witness :
  "0xC0FFEE" <> ""
  /\ exists c,
       trace (@deploy tagging_CallData ascii_runtime sample_factory [sample_calldata])
       = [EvDeclareAndDeploy (payload_of sample_factory (VObj ∅) sample_calldata)]
       /\ result (@deploy tagging_CallData ascii_runtime sample_factory [sample_calldata]) = Ok c
       /\ address c = VStr "0xc0ffee"
       /\ deployTransactionHash c = VStr "0xabc".
Proof.
  split; [discriminate|].
  unshelve epose proof (@deploy_then_deployed tagging_CallData ascii_runtime sample_factory
                          [sample_calldata]
                          {| args := [sample_calldata]; options := VObj ∅ |}
                          [] sample_calldata (VStr "0xabc") "0xC0FFEE"
                          (fun _ => Ok {| contract_address := VStr "0xC0FFEE";
                                          transaction_hash := VStr "0xabc" |})
                          _ _ _ _ _ _) as W.
  - settle.
  - settle.
  - settle.
  - settle.
  - discriminate.
  - intros e [<-|[<-|[]]] _; discriminate.
  - destruct W as (c & Hrun & Haddr & _ & _ & Hhash & _).
    exists c. rewrite Hrun. repeat split; assumption.
Defined.

Lemma deploy_precompiled_calldata_witness :
  tagged sample_calldata = true
  /\ Forall (fun sent => sent = sample_calldata)
       (deployed_calldata
          (trace (@deploy tagging_CallData ascii_runtime sample_factory [sample_calldata]))).
Proof.
  split; [settle|].
  unshelve epose proof (@deploy_precompiled_calldata tagging_CallData ascii_runtime
                          sample_factory sample_calldata _ _)
    as (_ & _ & W & _); [settle..|].
  exact W.
Defined.

Lemma deploy_validates_on_request_witness :
  precompiled (VArr ∅ [VNum 5]) = None
  /\ @deploy rejecting_CallData ascii_runtime sample_factory
       [VNum 5; VObj {[ "parseRequest" := VBool true ]}]
     = ([EvValidate DEPLOY "constructor" (VArr ∅ [VNum 5])],
        Throw (Rejected "invalid arguments")).
Proof.
  split; [settle|].
  unshelve epose proof (@deploy_validates_on_request rejecting_CallData ascii_runtime
                          sample_factory [VNum 5]
                          {[ "parseRequest" := VBool true ]} (VBool true)
                          _ _ _) as [W _]; [settle..|].
  apply W. settle.
Defined.

Lemma estimate_without_fee_estimation_witness :
  (estimateInvokeFee (providerOrAccount provider_contract) = None
   /\ address provider_contract <> VNull)
  /\ @populate tagging_CallData provider_contract "set_balance" raw_five
     = ([EvCompile raw_five], Ok (request_to "set_balance" compiled_five))
  /\ @estimate tagging_CallData provider_contract "set_balance" raw_five
     = ([EvValidate INVOKE "set_balance" raw_five; EvCompile raw_five],
        Throw (Error not_an_account)).
Proof.
  split; [split; settle|].
  unshelve epose proof (@estimate_without_fee_estimation tagging_CallData
                          provider_contract "set_balance" raw_five
                          compiled_five write_entry _ _ _ _)
    as (Wp & We & _).
  - settle.
  - settle.
  - settle.
  - right. repeat split; settle.
  - split; [conclude Wp|conclude We].
Defined.

